(** * react-md: grid sizing, tooltip interaction handlers, ripple handlers
      and the keyboard click polyfill

    A shallow embedding of the event handling code of the repository and the
    properties its specification states about it.

    - [Binary64]: JavaScript's numbers, the IEEE 754 doubles.
    - [GridList]: the [recalculate] callback of the [GridList] component.
    - [React]: events, caller-supplied handlers, and handler bodies as
      functions from a state to a new state and a trace of what was done.
    - [Tooltip]: [useMouseState], [useKeyboardState] and [useTouchState],
      and the widget they make as a transition system with a clock.
    - [Ripple]: [useRippleHandlers].
    - [KeyboardClick]: [useKeyboardClickPolyfill].

    The definitions come first; the properties follow, one module of
    properties for each module of definitions. *)

From Stdlib Require Import Bool Arith ZArith QArith Qround Qabs Qpower.
From Stdlib Require Import List String Lia Lqa.
From Stdlib Require Qcanon SpecFloat.
Import ListNotations.
Close Scope Q_scope.

Set Implicit Arguments.

(* ================================================================== *)
(** * JavaScript numbers *)
(* ================================================================== *)

(** The numbers of the program are IEEE 754 binary64 doubles: NaN, the two
    infinities, the two zeros, and the non-zero finite values
    [+-m * 2^e] with [m < 2^53] and [-1074 <= e <= 971].  A finite value
    is kept as the rational it denotes.  As the standard has it, an
    operation gives the exact result rounded to the nearest double, ties to
    the one with an even significand, and an infinity when the rounded
    result reaches [2^1024]. *)
Module Binary64.
Local Open Scope Q_scope.

Inductive double : Type :=
| NaN
| Infinity (negative : bool)
| Zero (negative : bool)
| Finite (q : Q).

Definition prec : Z := 53.
Definition emin : Z := -1074.
Definition emax : Z := 1024.

Definition pow2 (e : Z) : Q := 2 ^ e.

(** The magnitude of a positive rational: the [e] with
    [2^(e-1) <= q < 2^e]. *)
Definition mag (q : Q) : Z :=
  let e := (Z.log2 (Qnum q) - Z.log2 (Zpos (Qden q)))%Z in
  if Qle_bool (pow2 e) q then (e + 1)%Z else e.

(** The exponent of the last place of the doubles of magnitude [e]: 53
    binary digits, and nothing below [2^-1074]. *)
Definition fexp (e : Z) : Z := Z.max (e - prec) emin.

Definition ulp (q : Q) : Q := pow2 (fexp (mag q)).

(** The nearest integer, the even one of the two when half way. *)
Definition nearestEven (x : Q) : Z :=
  let f := Qfloor x in
  match Qcompare (x - inject_Z f) (1 # 2) with
  | Lt => f
  | Gt => (f + 1)%Z
  | Eq => if Z.even f then f else (f + 1)%Z
  end.

(** A positive rational rounded to 53 digits, the exponent not bounded
    above. *)
Definition roundPositive (q : Q) : Q :=
  inject_Z (nearestEven (q / ulp q)) * ulp q.

Definition isNegative (q : Q) : bool := (Qnum q <? 0)%Z.

Definition withSign (negative : bool) (q : Q) : Q :=
  if negative then - q else q.

(** The double nearest to an exact result. *)
Definition round (q : Q) : double :=
  let s := isNegative q in
  let r := roundPositive (Qabs q) in
  if Qeq_bool r 0 then Zero s
  else if Qle_bool (pow2 emax) r then Infinity s
  else Finite (Qred (withSign s r)).

(** The double a decimal or whole literal denotes. *)
Definition ofQ (q : Q) : double :=
  if Qeq_bool q 0 then Zero false else round q.

Definition ofZ (z : Z) : double := ofQ (inject_Z z).

(** [x - y] *)
Definition dsub (x y : double) : double :=
  match x, y with
  | NaN, _ | _, NaN => NaN
  | Infinity sx, Infinity sy => if Bool.eqb sx sy then NaN else Infinity sx
  | Infinity sx, _ => Infinity sx
  | _, Infinity sy => Infinity (negb sy)
  | Zero sx, Zero sy => Zero (sx && negb sy)
  | Zero _, Finite b => Finite (- b)
  | Finite a, Zero _ => Finite a
  | Finite a, Finite b => ofQ (a - b)
  end.

(** [x / y] *)
Definition ddiv (x y : double) : double :=
  match x, y with
  | NaN, _ | _, NaN => NaN
  | Infinity _, Infinity _ => NaN
  | Zero _, Zero _ => NaN
  | Infinity sx, Zero sy => Infinity (xorb sx sy)
  | Infinity sx, Finite b => Infinity (xorb sx (isNegative b))
  | Zero sx, Infinity sy => Zero (xorb sx sy)
  | Finite a, Infinity sy => Zero (xorb (isNegative a) sy)
  | Finite a, Zero sy => Infinity (xorb (isNegative a) sy)
  | Zero sx, Finite b => Zero (xorb sx (isNegative b))
  | Finite a, Finite b => round (a / b)
  end.

(** [Math.ceil(x)]: the ceiling of a double is a double, so nothing is
    rounded; a value in [(-1, 0)] gives [-0]. *)
Definition dceil (x : double) : double :=
  match x with
  | Finite q =>
      let n := Qceiling q in
      if (n =? 0)%Z then Zero true else Finite (inject_Z n)
  | _ => x
  end.

(** [x < y] *)
Definition dltb (x y : double) : bool :=
  match x, y with
  | NaN, _ | _, NaN => false
  | Infinity sx, Infinity sy => sx && negb sy
  | Infinity sx, _ => sx
  | _, Infinity sy => negb sy
  | Zero _, Zero _ => false
  | Zero _, Finite b => negb (Qle_bool b 0)
  | Finite a, Zero _ => negb (Qle_bool 0 a)
  | Finite a, Finite b => negb (Qle_bool b a)
  end.

(** [x <= y] *)
Definition dleb (x y : double) : bool :=
  match x, y with
  | NaN, _ | _, NaN => false
  | Infinity sx, Infinity sy => sx || negb sy
  | Infinity sx, _ => sx
  | _, Infinity sy => negb sy
  | Zero _, Zero _ => true
  | Zero _, Finite b => Qle_bool 0 b
  | Finite a, Zero _ => Qle_bool a 0
  | Finite a, Finite b => Qle_bool a b
  end.

(** [x === y] *)
Definition deqb (x y : double) : bool :=
  match x, y with
  | Infinity sx, Infinity sy => Bool.eqb sx sy
  | Zero _, Zero _ => true
  | Finite a, Finite b => Qeq_bool a b
  | _, _ => false
  end.

(** [- x] *)
Definition dneg (x : double) : double :=
  match x with
  | NaN => NaN
  | Infinity s => Infinity (negb s)
  | Zero s => Zero (negb s)
  | Finite q => Finite (- q)
  end.

(** [Number.isFinite(x)] *)
Definition isFinite (x : double) : bool :=
  match x with
  | Zero _ | Finite _ => true
  | _ => false
  end.

(** Whether [Finite q] is one of the doubles: a non-zero value that
    rounding leaves as it is.  The operations above give doubles from
    doubles. *)
Definition isDouble (x : double) : bool :=
  match x with
  | Finite q => deqb (round q) x
  | _ => true
  end.

(** ** The Standard Library's specification of IEEE 754 *)

(** The value of a float of [SpecFloat]. *)
Definition ofSpecFloat (f : SpecFloat.spec_float) : double :=
  match f with
  | SpecFloat.S754_zero s => Zero s
  | SpecFloat.S754_infinity s => Infinity s
  | SpecFloat.S754_nan => NaN
  | SpecFloat.S754_finite s m e =>
      Finite (Qred (withSign s (inject_Z (Zpos m) * pow2 e)))
  end.

Definition specInteger (z : Z) : SpecFloat.spec_float :=
  SpecFloat.binary_normalize prec emax z 0 false.

Definition specSub : SpecFloat.spec_float -> SpecFloat.spec_float
    -> SpecFloat.spec_float :=
  SpecFloat.SFsub prec emax.

Definition specDiv : SpecFloat.spec_float -> SpecFloat.spec_float
    -> SpecFloat.spec_float :=
  SpecFloat.SFdiv prec emax.

(** The same double, the sign of zero included. *)
Definition sameDouble (x y : double) : bool :=
  match x, y with
  | NaN, NaN => true
  | Infinity sx, Infinity sy => Bool.eqb sx sy
  | Zero sx, Zero sy => Bool.eqb sx sy
  | Finite a, Finite b => Qeq_bool a b
  | _, _ => false
  end.

(** Whether [dsub] and [ddiv] give on [x] and [y] what [SFsub] and [SFdiv]
    give. *)
Definition agreesAt (x y : SpecFloat.spec_float) : bool :=
  sameDouble (ofSpecFloat (specSub x y))
             (dsub (ofSpecFloat x) (ofSpecFloat y))
  && sameDouble (ofSpecFloat (specDiv x y))
                (ddiv (ofSpecFloat x) (ofSpecFloat y)).

Definition agreesOn (xs : list SpecFloat.spec_float) : bool :=
  forallb (fun x => forallb (agreesAt x) xs) xs.

(** Sample doubles: the quotients of some whole numbers, small and large
    and of either sign; zeros, infinities, NaN and subnormal values are
    among them. *)
Definition sampleIntegers : list Z :=
  [0; 1; -3; 10; 2 ^ 53 + 1; - 3 ^ 646]%Z.

Definition sampleDoubles : list SpecFloat.spec_float :=
  flat_map (fun a => map (fun b => specDiv (specInteger a) (specInteger b))
                         sampleIntegers)
           sampleIntegers.

End Binary64.

(* ================================================================== *)
(** * GridList *)
(* ================================================================== *)

Module GridList.
Local Open Scope Q_scope.

(** JavaScript numbers.  [recalculate] uses subtraction, division,
    [Math.ceil] and [<]; the component is written against this interface so
    that what is proved about the shape of the computation holds for every
    arithmetic, IEEE doubles with their infinities and NaN included. *)
Class Number (num : Type) : Type := {
  sub : num -> num -> num;
  div : num -> num -> num;
  ceil : num -> num;
  ltb : num -> num -> bool;
  minus_one : num
}.

Section Component.
Context {num : Type} `{Number num}.

(** [GridListSize] *)
Record GridListSize : Type := {
  columns : num;
  cellWidth : num
}.

(** The layout figures of the [HTMLDivElement] that [recalculate] reads. *)
Record HTMLDivElement : Type := {
  offsetWidth : num;
  offsetHeight : num;
  scrollHeight : num
}.

(** The props [recalculate] closes over (both have defaults, so both are
    present). *)
Record GridListProps : Type := {
  maxCellSize : num;
  containerPadding : num;
  defaultSize : option GridListSize
}.

(** The component instance: [ref.current] and the [gridSize] state. *)
Record GridListState : Type := {
  ref_current : option HTMLDivElement;
  gridSize : GridListSize
}.

(** [useState(defaultSize || { columns: -1, cellWidth: maxCellSize })] *)
Definition initialGridSize (props : GridListProps) : GridListSize :=
  match defaultSize props with
  | Some size => size
  | None => {| columns := minus_one; cellWidth := maxCellSize props |}
  end.

Definition initialState (props : GridListProps) : GridListState :=
  {| ref_current := None; gridSize := initialGridSize props |}.

Definition setGridSize (size : GridListSize) (inst : GridListState)
    : GridListState :=
  {| ref_current := ref_current inst; gridSize := size |}.

(** [recalculate]; [scrollbarWidth] is what [getScrollbarWidth()]
    returns. *)
Definition recalculate (props : GridListProps) (scrollbarWidth : num)
    (inst : GridListState) : GridListState :=
  match ref_current inst with
  | None => inst
  | Some el =>
      let width := sub (offsetWidth el) (containerPadding props) in
      let width :=
        if ltb (offsetHeight el) (scrollHeight el)
        then sub width scrollbarWidth
        else width in
      let columns := ceil (div width (maxCellSize props)) in
      setGridSize {| cellWidth := div width columns; columns := columns |}
                  inst
  end.

(** [refHandler]: stores the element and recalculates when there is one. *)
Definition refHandler (props : GridListProps) (scrollbarWidth : num)
    (instance : option HTMLDivElement) (inst : GridListState)
    : GridListState :=
  let inst := {| ref_current := instance; gridSize := gridSize inst |} in
  match instance with
  | Some _ => recalculate props scrollbarWidth inst
  | None => inst
  end.

(** The width the grid has to fill, in the words of the specification:
    the element's [offsetWidth] less the container padding, less the
    scrollbar width when the content overflows vertically. *)
Definition overflows (el : HTMLDivElement) : bool :=
  ltb (offsetHeight el) (scrollHeight el).

Definition effectiveWidth (el : HTMLDivElement) (padding scrollbarWidth : num)
    : num :=
  if overflows el
  then sub (sub (offsetWidth el) padding) scrollbarWidth
  else sub (offsetWidth el) padding.

End Component.

Arguments GridListSize num : clear implicits.
Arguments HTMLDivElement num : clear implicits.
Arguments GridListProps num : clear implicits.
Arguments GridListState num : clear implicits.

(** JavaScript's numbers are the IEEE binary64 doubles of [Binary64]. *)
#[export] Instance DoubleNumber : Number Binary64.double := {
  sub := Binary64.dsub;
  div := Binary64.ddiv;
  ceil := Binary64.dceil;
  ltb := Binary64.dltb;
  minus_one := Binary64.ofZ (-1)
}.

(** The element of the repository's test: every element is 1000 wide. *)
Definition testElement : HTMLDivElement Binary64.double :=
  {| offsetWidth := Binary64.ofZ 1000;
     offsetHeight := Binary64.ofZ 0;
     scrollHeight := Binary64.ofZ 0 |}.

Definition defaultProps : GridListProps Binary64.double :=
  {| maxCellSize := Binary64.ofZ 150;
     containerPadding := Binary64.ofZ 16;
     defaultSize := None |}.

Definition withMaxCellSize (m : Binary64.double)
    (props : GridListProps Binary64.double) : GridListProps Binary64.double :=
  {| maxCellSize := m;
     containerPadding := containerPadding props;
     defaultSize := defaultSize props |}.

End GridList.

(* ================================================================== *)
(** * Events, callbacks and effects *)
(* ================================================================== *)

Module React.

(** A caller-supplied event handler is an opaque function of the
    application: it is identified by a token, and calling it is recorded in
    the trace of the handler that called it. *)
Definition callback : Type := nat.

Record Element : Type := {
  tagName : string;
  elementId : nat
}.

(** A synthetic event, with the two facts about the document the handlers
    read while they handle it. *)
Record Event : Type := {
  key : string;
  currentTarget : Element;
  (** [document.activeElement === event.currentTarget] *)
  targetIsActiveElement : bool;
  (** [selection && selectionNode &&
       event.currentTarget.contains(selectionNode)] *)
  selectionWithinTarget : bool
}.

(** What a handler does that the outside can observe, in order: calls of
    caller-supplied handlers, and the hook's own actions [I]. *)
Inductive effect (I : Type) : Type :=
| Called (cb : callback) (ev : Event)
| Did (act : I).

Arguments Called {I} cb ev.
Arguments Did {I} act.

Section Monad.
Context {S I : Type}.

(** A handler body: reads and writes the hook's state [S] and appends to
    the trace. *)
Definition M (A : Type) : Type := S -> A * S * list (effect I).

Definition ret {A : Type} (a : A) : M A := fun s => (a, s, []).

Definition bind {A B : Type} (m : M A) (f : A -> M B) : M B :=
  fun s =>
    let '(a, s1, l1) := m s in
    let '(b, s2, l2) := f a s1 in
    (b, s2, l1 ++ l2).

Definition get : M S := fun s => (s, s, []).

Definition modify (f : S -> S) : M unit := fun s => (tt, f s, []).

Definition perform (act : I) : M unit := fun s => (tt, s, [Did act]).

(** [if (handler) { handler(event); }] *)
Definition callIfPresent (handler : option callback) (ev : Event) : M unit :=
  match handler with
  | Some cb => fun s => (tt, s, [Called cb ev])
  | None => ret tt
  end.

Definition when (b : bool) (m : M unit) : M unit :=
  if b then m else ret tt.

Definition stateOf {A : Type} (r : A * S * list (effect I)) : S :=
  snd (fst r).

Definition traceOf {A : Type} (r : A * S * list (effect I))
    : list (effect I) :=
  snd r.

End Monad.

Arguments M S I A : clear implicits.

(** The value of a handler prop of the returned element: the function the
    caller supplied, or a closure made by the hook. *)
Inductive handler (S I : Type) : Type :=
| Provided (cb : callback)
| Merged (run : Event -> M S I unit).

Arguments Provided {S I} cb.
Arguments Merged {S I} run.

Definition provided {S I : Type} (h : option callback)
    : option (handler S I) :=
  option_map Provided h.

(** The browser dispatching an event to a handler prop. *)
Definition dispatch {S I : Type} (h : option (handler S I)) (ev : Event)
    : M S I unit :=
  match h with
  | Some (Provided cb) => callIfPresent (Some cb) ev
  | Some (Merged run) => run ev
  | None => ret tt
  end.

(** Is a trace entry the call of a caller-supplied handler, or an action of
    the hook? *)
Definition isCall {I : Type} (e : effect I) : bool :=
  match e with
  | Called _ _ => true
  | Did _ => false
  end.

Definition isAction {I : Type} (e : effect I) : bool := negb (isCall e).

(** The actions of the hook in a trace, without the calls of the caller's
    handlers. *)
Fixpoint actionsOf {I : Type} (tr : list (effect I)) : list I :=
  match tr with
  | [] => []
  | Called _ _ :: tr => actionsOf tr
  | Did act :: tr => act :: actionsOf tr
  end.

(** The trace of calling an optional caller-supplied handler. *)
Definition userCall {I : Type} (h : option callback) (ev : Event)
    : list (effect I) :=
  match h with
  | Some cb => [Called cb ev]
  | None => []
  end.

(** A handler [h] merged with the optional caller-supplied handler [cb]
    calls [cb] first: its trace is the call of [cb], when there is one,
    followed by actions of the hook only. *)
Definition callbackFirst {S I : Type} (cb : option callback)
    (h : Event -> M S I unit) : Prop :=
  forall (ev : Event) (s : S),
    exists tl : list (effect I),
      traceOf (h ev s) = userCall cb ev ++ tl
      /\ forallb isAction tl = true.

(** Two handlers make the same transition: from the same state they reach
    the same state through the same actions of the hook. *)
Definition sameTransition {S I : Type} (h h' : Event -> M S I unit) : Prop :=
  forall (ev : Event) (s : S),
    stateOf (h ev s) = stateOf (h' ev s)
    /\ actionsOf (traceOf (h ev s)) = actionsOf (traceOf (h' ev s)).

(** A handler calls no caller-supplied handler at all. *)
Definition callsNothing {S I : Type} (h : Event -> M S I unit) : Prop :=
  forall (ev : Event) (s : S), forallb isAction (traceOf (h ev s)) = true.

End React.

Declare Scope handler_scope.
Delimit Scope handler_scope with handler.
Notation "x <- m ;; k" := (React.bind m (fun x => k))
  (at level 61, m at next level, right associativity) : handler_scope.
Notation "m ;; k" := (React.bind m (fun _ => k))
  (at level 61, right associativity) : handler_scope.

(* ================================================================== *)
(** * Tooltip: useMouseState, useKeyboardState, useTouchState *)
(* ================================================================== *)

Module Tooltip.
Import React.
Local Open Scope string_scope.
Local Open Scope nat_scope.
Local Open Scope handler_scope.

(** [UserInteractionMode] is declared in [@react-md/states]; at run time
    its values are the strings the handlers compare with and write. *)
Definition UserInteractionMode : Type := string.

(** [TooltipInitiated = UserInteractionMode | null] *)
Definition TooltipInitiated : Type := option UserInteractionMode.

(** [initiated.current === m] *)
Definition initiatedIs (v : TooltipInitiated) (m : UserInteractionMode)
    : bool :=
  match v with
  | Some s => String.eqb s m
  | None => false
  end.

(** [initiated.current !== null] *)
Definition notNull (v : TooltipInitiated) : bool :=
  match v with
  | Some _ => true
  | None => false
  end.

(** The three hooks, each with a timer of its own from [useTimeout]. *)
Inductive flow : Type := MouseFlow | KeyboardFlow | TouchFlow.

(** The mode string a flow writes into [initiated]. *)
Definition modeOf (f : flow) : UserInteractionMode :=
  match f with
  | MouseFlow => "mouse"
  | KeyboardFlow => "keyboard"
  | TouchFlow => "touch"
  end.

(** What the tooltip hooks do besides calling the caller's handlers. *)
Inductive TooltipAction : Type :=
| SetInitiated (m : TooltipInitiated)
| SetEstimatedPosition (container : Element)
| ShowTooltip
| HideTooltip
| HoverModeEnable
| HoverModeStartDisableTimer
| TimerStart (f : flow)
| TimerStop (f : flow)
| EventPreventDefault
| SelectionEmpty
| RequestAnimationFrame
| WriteTouched (b : bool)
| WriteWindowBlurred (b : bool).

Record MergableMouseHandlers (H : Type) : Type := {
  onMouseEnter : option H;
  onMouseLeave : option H
}.

Record MergableKeyboardHandlers (H : Type) : Type := {
  onFocus : option H;
  onBlur : option H;
  onKeyDown : option H
}.

Record MergableTouchHandlers (H : Type) : Type := {
  onTouchStart : option H;
  onTouchMove : option H;
  onContextMenu : option H
}.

(** [HandlersBaseOptions] with the handlers of the three option types, and
    what the hover mode context provides. *)
Record TooltipOptions : Type := {
  mode : UserInteractionMode;
  delay : nat;
  disableHoverMode : option bool;
  (** [useTooltipHoverModeEnabled()] *)
  hoverModeEnabled : bool;
  (** [useTooltipHoverModeDelay()] *)
  hoverModeDelay : nat;
  mouse : MergableMouseHandlers callback;
  keyboard : MergableKeyboardHandlers callback;
  touch : MergableTouchHandlers callback;
  (** Whether the [hideTooltip] passed in also resets [initiated.current]
      to [null]; see [hideTooltip] below. *)
  hideResetsInitiated : bool
}.

(** Modelled from the spec: a pending timeout of [useTimeout], with the
    time at which [start] armed it and the delay it was armed with; it is
    due once that delay has elapsed. *)
Record Timeout : Type := {
  armedAt : nat;
  wait : nat
}.

Definition due (t : option Timeout) (time : nat) : bool :=
  match t with
  | Some t => armedAt t + wait t <=? time
  | None => false
  end.

(** One tooltip widget: the clock, the refs and state the hooks share, the
    three timers, and what React keeps for [useTouchState]'s effect. *)
Record State : Type := {
  now : nat;
  (** [initiated.current] *)
  initiated : TooltipInitiated;
  visible : bool;
  (** [isWindowBlurred.current] *)
  isWindowBlurred : bool;
  (** [touched.current] *)
  touched : bool;
  mouseTimer : option Timeout;
  keyboardTimer : option Timeout;
  touchTimer : option Timeout;
  (** the [touchend] listener [cb] is attached to [window] *)
  touchEndListener : bool;
  (** a [requestAnimationFrame] callback is pending *)
  frameRequested : bool;
  (** the [[visible, mode]] the touch effect last ran with *)
  effectDeps : bool * UserInteractionMode
}.

Definition advance (ms : nat) (st : State) : State :=
  {| now := now st + ms; initiated := initiated st; visible := visible st;
     isWindowBlurred := isWindowBlurred st; touched := touched st;
     mouseTimer := mouseTimer st; keyboardTimer := keyboardTimer st;
     touchTimer := touchTimer st; touchEndListener := touchEndListener st;
     frameRequested := frameRequested st; effectDeps := effectDeps st |}.

Definition set_initiated (v : TooltipInitiated) (st : State) : State :=
  {| now := now st; initiated := v; visible := visible st;
     isWindowBlurred := isWindowBlurred st; touched := touched st;
     mouseTimer := mouseTimer st; keyboardTimer := keyboardTimer st;
     touchTimer := touchTimer st; touchEndListener := touchEndListener st;
     frameRequested := frameRequested st; effectDeps := effectDeps st |}.

Definition set_visible (v : bool) (st : State) : State :=
  {| now := now st; initiated := initiated st; visible := v;
     isWindowBlurred := isWindowBlurred st; touched := touched st;
     mouseTimer := mouseTimer st; keyboardTimer := keyboardTimer st;
     touchTimer := touchTimer st; touchEndListener := touchEndListener st;
     frameRequested := frameRequested st; effectDeps := effectDeps st |}.

Definition set_isWindowBlurred (v : bool) (st : State) : State :=
  {| now := now st; initiated := initiated st; visible := visible st;
     isWindowBlurred := v; touched := touched st;
     mouseTimer := mouseTimer st; keyboardTimer := keyboardTimer st;
     touchTimer := touchTimer st; touchEndListener := touchEndListener st;
     frameRequested := frameRequested st; effectDeps := effectDeps st |}.

Definition set_touched (v : bool) (st : State) : State :=
  {| now := now st; initiated := initiated st; visible := visible st;
     isWindowBlurred := isWindowBlurred st; touched := v;
     mouseTimer := mouseTimer st; keyboardTimer := keyboardTimer st;
     touchTimer := touchTimer st; touchEndListener := touchEndListener st;
     frameRequested := frameRequested st; effectDeps := effectDeps st |}.

Definition set_mouseTimer (v : option Timeout) (st : State) : State :=
  {| now := now st; initiated := initiated st; visible := visible st;
     isWindowBlurred := isWindowBlurred st; touched := touched st;
     mouseTimer := v; keyboardTimer := keyboardTimer st;
     touchTimer := touchTimer st; touchEndListener := touchEndListener st;
     frameRequested := frameRequested st; effectDeps := effectDeps st |}.

Definition set_keyboardTimer (v : option Timeout) (st : State) : State :=
  {| now := now st; initiated := initiated st; visible := visible st;
     isWindowBlurred := isWindowBlurred st; touched := touched st;
     mouseTimer := mouseTimer st; keyboardTimer := v;
     touchTimer := touchTimer st; touchEndListener := touchEndListener st;
     frameRequested := frameRequested st; effectDeps := effectDeps st |}.

Definition set_touchTimer (v : option Timeout) (st : State) : State :=
  {| now := now st; initiated := initiated st; visible := visible st;
     isWindowBlurred := isWindowBlurred st; touched := touched st;
     mouseTimer := mouseTimer st; keyboardTimer := keyboardTimer st;
     touchTimer := v; touchEndListener := touchEndListener st;
     frameRequested := frameRequested st; effectDeps := effectDeps st |}.

Definition set_touchEndListener (v : bool) (st : State) : State :=
  {| now := now st; initiated := initiated st; visible := visible st;
     isWindowBlurred := isWindowBlurred st; touched := touched st;
     mouseTimer := mouseTimer st; keyboardTimer := keyboardTimer st;
     touchTimer := touchTimer st; touchEndListener := v;
     frameRequested := frameRequested st; effectDeps := effectDeps st |}.

Definition set_frameRequested (v : bool) (st : State) : State :=
  {| now := now st; initiated := initiated st; visible := visible st;
     isWindowBlurred := isWindowBlurred st; touched := touched st;
     mouseTimer := mouseTimer st; keyboardTimer := keyboardTimer st;
     touchTimer := touchTimer st; touchEndListener := touchEndListener st;
     frameRequested := v; effectDeps := effectDeps st |}.

Definition set_effectDeps (v : bool * UserInteractionMode) (st : State)
    : State :=
  {| now := now st; initiated := initiated st; visible := visible st;
     isWindowBlurred := isWindowBlurred st; touched := touched st;
     mouseTimer := mouseTimer st; keyboardTimer := keyboardTimer st;
     touchTimer := touchTimer st; touchEndListener := touchEndListener st;
     frameRequested := frameRequested st; effectDeps := v |}.

Definition timerOf (f : flow) (st : State) : option Timeout :=
  match f with
  | MouseFlow => mouseTimer st
  | KeyboardFlow => keyboardTimer st
  | TouchFlow => touchTimer st
  end.

Definition set_timer (f : flow) (v : option Timeout) (st : State) : State :=
  match f with
  | MouseFlow => set_mouseTimer v st
  | KeyboardFlow => set_keyboardTimer v st
  | TouchFlow => set_touchTimer v st
  end.

Definition mount (o : TooltipOptions) : State :=
  {| now := 0;
     initiated := None;
     visible := false;
     isWindowBlurred := false;
     touched := false;
     mouseTimer := None;
     keyboardTimer := None;
     touchTimer := None;
     touchEndListener := false;
     frameRequested := false;
     effectDeps := (false, mode o) |}.

Definition TooltipHook (A : Type) : Type := M State TooltipAction A.

(** ** What the hooks are given *)

(** Modelled from the spec: [setInitiated] is passed in by the tooltip
    state hook; the interaction mode is "tracked per widget instance;
    mutated on each qualifying input event", and the options describe
    [setInitiated] as the "callback that will set the current initiation
    type": it stores its argument in [initiated.current]. *)
Definition setInitiated (m : TooltipInitiated) : TooltipHook unit :=
  perform (SetInitiated m) ;;
  modify (set_initiated m).

(** Modelled from the spec: [showTooltip] is passed in by the tooltip state
    hook; "tooltip visibility: boolean, owned by the widget instance". *)
Definition showTooltip : TooltipHook unit :=
  perform ShowTooltip ;;
  modify (set_visible true).

(** Modelled from the spec: [hideTooltip] is passed in by the tooltip state
    hook.  It makes the tooltip invisible; it may or may not reset
    [initiated.current] as well, and both behaviours are covered, chosen
    by [hideResetsInitiated]. *)
Definition hideTooltip (o : TooltipOptions) : TooltipHook unit :=
  perform HideTooltip ;;
  modify (set_visible false) ;;
  when (hideResetsInitiated o) (modify (set_initiated None)).

Definition setEstimatedPosition (container : Element) : TooltipHook unit :=
  perform (SetEstimatedPosition container).

(** Modelled from the spec: [useTimeout] of [@react-md/utils]; "timers
    schedule deferred callbacks on the same loop" and "cancellation is
    simply clearing a pending timer".  [start] arms the hook's one timer
    with the delay (replacing a pending one), [stop] clears it. *)
Definition start (f : flow) (ms : nat) : TooltipHook unit :=
  perform (TimerStart f) ;;
  st <- get ;;
  modify (set_timer f (Some {| armedAt := now st; wait := ms |})).

Definition stop (f : flow) : TooltipHook unit :=
  perform (TimerStop f) ;;
  modify (set_timer f None).

Definition writeTouched (b : bool) : TooltipHook unit :=
  perform (WriteTouched b) ;;
  modify (set_touched b).

Definition writeWindowBlurred (b : bool) : TooltipHook unit :=
  perform (WriteWindowBlurred b) ;;
  modify (set_isWindowBlurred b).

(** ** useMouseState *)

Definition isHoverModeable (o : TooltipOptions) : bool :=
  match disableHoverMode o with
  | Some b => negb b
  | None => hoverModeEnabled o
  end.

(** The delay given to the mouse flow's [useTimeout]. *)
Definition mouseDelay (o : TooltipOptions) : nat :=
  if negb (isHoverModeable o) then delay o else hoverModeDelay o.

(** The callback given to the mouse flow's [useTimeout]. *)
Definition mouseTimeout (o : TooltipOptions) : TooltipHook unit :=
  st <- get ;;
  when (initiatedIs (initiated st) "mouse")
    (showTooltip ;;
     when (isHoverModeable o) (perform HoverModeEnable)).

Definition handleMouseEnter (o : TooltipOptions) (event : Event)
    : TooltipHook unit :=
  callIfPresent (onMouseEnter (mouse o)) event ;;
  st <- get ;;
  if notNull (initiated st) then ret tt else
  setInitiated (Some "mouse") ;;
  setEstimatedPosition (currentTarget event) ;;
  start MouseFlow (mouseDelay o).

Definition handleMouseLeave (o : TooltipOptions) (event : Event)
    : TooltipHook unit :=
  callIfPresent (onMouseLeave (mouse o)) event ;;
  st <- get ;;
  if negb (initiatedIs (initiated st) "mouse") then ret tt else
  stop MouseFlow ;;
  hideTooltip o ;;
  when (isHoverModeable o) (perform HoverModeStartDisableTimer).

Definition mouseHandlers (o : TooltipOptions)
    : MergableMouseHandlers (handler State TooltipAction) :=
  {| onMouseEnter :=
       if negb (mode o =? "touch")%string
       then Some (Merged (handleMouseEnter o))
       else provided (onMouseEnter (mouse o));
     onMouseLeave :=
       if negb (mode o =? "touch")%string
       then Some (Merged (handleMouseLeave o))
       else provided (onMouseLeave (mouse o)) |}.

(** ** useKeyboardState *)

(** The callback given to the keyboard flow's [useTimeout]. *)
Definition keyboardTimeout : TooltipHook unit :=
  st <- get ;;
  when (initiatedIs (initiated st) "keyboard") showTooltip.

Definition handleFocus (o : TooltipOptions) (event : Event)
    : TooltipHook unit :=
  callIfPresent (onFocus (keyboard o)) event ;;
  st <- get ;;
  if isWindowBlurred st then writeWindowBlurred false else
  setInitiated (Some "keyboard") ;;
  setEstimatedPosition (currentTarget event) ;;
  start KeyboardFlow (delay o).

Definition handleBlur (o : TooltipOptions) (event : Event) : TooltipHook unit :=
  callIfPresent (onBlur (keyboard o)) event ;;
  stop KeyboardFlow ;;
  hideTooltip o.

Definition handleKeyDown (o : TooltipOptions) (event : Event)
    : TooltipHook unit :=
  callIfPresent (onKeyDown (keyboard o)) event ;;
  st <- get ;;
  when (initiatedIs (initiated st) "keyboard" && (key event =? "Escape")%string)
    (stop KeyboardFlow ;;
     hideTooltip o).

(** The [visibilitychange] listener; [hidden] is [document.hidden]. *)
Definition handleWindowBlur (o : TooltipOptions) (hidden : bool)
    : TooltipHook unit :=
  if hidden then
    writeWindowBlurred true ;;
    hideTooltip o
  else
    perform RequestAnimationFrame ;;
    modify (set_frameRequested true).

Definition keyboardHandlers (o : TooltipOptions)
    : MergableKeyboardHandlers (handler State TooltipAction) :=
  {| onFocus :=
       if (mode o =? "keyboard")%string
       then Some (Merged (handleFocus o))
       else provided (onFocus (keyboard o));
     onBlur :=
       if (mode o =? "keyboard")%string
       then Some (Merged (handleBlur o))
       else provided (onBlur (keyboard o));
     onKeyDown :=
       if (mode o =? "keyboard")%string
       then Some (Merged (handleKeyDown o))
       else provided (onKeyDown (keyboard o)) |}.

(** ** useTouchState *)

(** The callback given to the touch flow's [useTimeout]. *)
Definition touchTimeout (o : TooltipOptions) : TooltipHook unit :=
  writeTouched false ;;
  hideTooltip o.

(** The [touchend] listener [cb] of the effect. *)
Definition touchEndCallback (o : TooltipOptions) : TooltipHook unit :=
  start TouchFlow (delay o) ;;
  modify (set_touchEndListener false).

(** The effect with dependencies [[visible, mode]]: when one of them has
    changed since it last ran, the previous listener is removed and the
    body runs again. *)
Definition touchEffect (o : TooltipOptions) : TooltipHook unit :=
  st <- get ;;
  if Bool.eqb (visible st) (fst (effectDeps st))
     && (mode o =? snd (effectDeps st))%string
  then ret tt else
  modify (set_touchEndListener false) ;;
  modify (set_effectDeps (visible st, mode o)) ;;
  if negb (visible st) then ret tt
  else if negb (mode o =? "touch")%string then writeTouched false
  else modify (set_touchEndListener true).

Definition handleTouchStart (o : TooltipOptions) (event : Event)
    : TooltipHook unit :=
  callIfPresent (onTouchStart (touch o)) event ;;
  writeTouched true ;;
  stop TouchFlow ;;
  setEstimatedPosition (currentTarget event).

Definition handleTouchMove (o : TooltipOptions) (event : Event)
    : TooltipHook unit :=
  callIfPresent (onTouchMove (touch o)) event ;;
  writeTouched false.

Definition handleContextMenu (o : TooltipOptions) (event : Event)
    : TooltipHook unit :=
  callIfPresent (onContextMenu (touch o)) event ;;
  st <- get ;;
  if negb (touched st) then ret tt else
  perform EventPreventDefault ;;
  when (selectionWithinTarget event) (perform SelectionEmpty) ;;
  setInitiated (Some "touch") ;;
  showTooltip.

Definition touchHandlers (o : TooltipOptions)
    : MergableTouchHandlers (handler State TooltipAction) :=
  {| onTouchStart := Some (Merged (handleTouchStart o));
     onTouchMove := Some (Merged (handleTouchMove o));
     onContextMenu :=
       if (mode o =? "touch")%string
       then Some (Merged (handleContextMenu o))
       else provided (onContextMenu (touch o)) |}.

(** ** The widget as a transition system *)

(** What can happen to a widget: an event on its element, an event on the
    window, time passing, and a timer running its callback. *)
Inductive label : Type :=
| MouseEnter (event : Event)
| MouseLeave (event : Event)
| Focus (event : Event)
| Blur (event : Event)
| KeyDown (event : Event)
| TouchStart (event : Event)
| TouchMove (event : Event)
| ContextMenu (event : Event)
| WindowTouchEnd
| VisibilityChange (hidden : bool)
| AnimationFrame
| Elapse (ms : nat)
| TimerFires (f : flow).

Definition timeoutCallback (o : TooltipOptions) (f : flow) : TooltipHook unit :=
  match f with
  | MouseFlow => mouseTimeout o
  | KeyboardFlow => keyboardTimeout
  | TouchFlow => touchTimeout o
  end.

(** Modelled from the spec: the timer of flow [f] runs its callback, which
    the event loop allows only once the timer is due ("timers schedule
    deferred callbacks on the same loop"); nothing happens otherwise. *)
Definition fire (o : TooltipOptions) (f : flow) : TooltipHook unit :=
  st <- get ;;
  if due (timerOf f st) (now st) then
    modify (set_timer f None) ;;
    timeoutCallback o f
  else ret tt.

Definition react (o : TooltipOptions) (l : label) : TooltipHook unit :=
  match l with
  | MouseEnter event => dispatch (onMouseEnter (mouseHandlers o)) event
  | MouseLeave event => dispatch (onMouseLeave (mouseHandlers o)) event
  | Focus event => dispatch (onFocus (keyboardHandlers o)) event
  | Blur event => dispatch (onBlur (keyboardHandlers o)) event
  | KeyDown event => dispatch (onKeyDown (keyboardHandlers o)) event
  | TouchStart event => dispatch (onTouchStart (touchHandlers o)) event
  | TouchMove event => dispatch (onTouchMove (touchHandlers o)) event
  | ContextMenu event => dispatch (onContextMenu (touchHandlers o)) event
  | WindowTouchEnd =>
      st <- get ;;
      when (touchEndListener st) (touchEndCallback o)
  | VisibilityChange hidden =>
      when (mode o =? "keyboard")%string (handleWindowBlur o hidden)
  | AnimationFrame =>
      st <- get ;;
      when (frameRequested st)
        (modify (set_frameRequested false) ;;
         writeWindowBlurred false)
  | Elapse ms => modify (advance ms)
  | TimerFires f => fire o f
  end.

(** One step: the reaction, then the render it causes, whose effects run
    when their dependencies have changed. *)
Definition step (o : TooltipOptions) (l : label) : TooltipHook unit :=
  react o l ;;
  touchEffect o.

(** A run: each label is handled with the options of the render current
    at that moment. *)
Fixpoint run (ls : list (TooltipOptions * label)) : TooltipHook unit :=
  match ls with
  | [] => ret tt
  | (o, l) :: ls => step o l ;; run ls
  end.

(** ** The merged handlers *)

Inductive mergedHandler : Type :=
| MouseEnterHandler | MouseLeaveHandler
| FocusHandler | BlurHandler | KeyDownHandler
| TouchStartHandler | TouchMoveHandler | ContextMenuHandler.

Definition body (h : mergedHandler) (o : TooltipOptions)
    : Event -> TooltipHook unit :=
  match h with
  | MouseEnterHandler => handleMouseEnter o
  | MouseLeaveHandler => handleMouseLeave o
  | FocusHandler => handleFocus o
  | BlurHandler => handleBlur o
  | KeyDownHandler => handleKeyDown o
  | TouchStartHandler => handleTouchStart o
  | TouchMoveHandler => handleTouchMove o
  | ContextMenuHandler => handleContextMenu o
  end.

(** The caller-supplied handler a merged handler wraps. *)
Definition supplied (h : mergedHandler) (o : TooltipOptions)
    : option callback :=
  match h with
  | MouseEnterHandler => onMouseEnter (mouse o)
  | MouseLeaveHandler => onMouseLeave (mouse o)
  | FocusHandler => onFocus (keyboard o)
  | BlurHandler => onBlur (keyboard o)
  | KeyDownHandler => onKeyDown (keyboard o)
  | TouchStartHandler => onTouchStart (touch o)
  | TouchMoveHandler => onTouchMove (touch o)
  | ContextMenuHandler => onContextMenu (touch o)
  end.

(** The options with other caller-supplied handlers. *)
Definition withCallbacks (m : MergableMouseHandlers callback)
    (k : MergableKeyboardHandlers callback)
    (t : MergableTouchHandlers callback) (o : TooltipOptions)
    : TooltipOptions :=
  {| mode := mode o;
     delay := delay o;
     disableHoverMode := disableHoverMode o;
     hoverModeEnabled := hoverModeEnabled o;
     hoverModeDelay := hoverModeDelay o;
     mouse := m;
     keyboard := k;
     touch := t;
     hideResetsInitiated := hideResetsInitiated o |}.

Definition noMouseHandlers : MergableMouseHandlers callback :=
  {| onMouseEnter := None; onMouseLeave := None |}.

Definition noKeyboardHandlers : MergableKeyboardHandlers callback :=
  {| onFocus := None; onBlur := None; onKeyDown := None |}.

Definition noTouchHandlers : MergableTouchHandlers callback :=
  {| onTouchStart := None; onTouchMove := None; onContextMenu := None |}.

Definition withoutCallbacks (o : TooltipOptions) : TooltipOptions :=
  withCallbacks noMouseHandlers noKeyboardHandlers noTouchHandlers o.

(** ** Timers and gestures *)

(** The delay the timer of a flow is started with. *)
Definition delayOf (o : TooltipOptions) (f : flow) : nat :=
  match f with
  | MouseFlow => mouseDelay o
  | KeyboardFlow | TouchFlow => delay o
  end.

(** The events that cancel a pending show, and the flow whose timer they
    stop: mouseleave while mouse-initiated, blur, and Escape while
    keyboard-initiated, each on an element that carries the merged
    handler. *)
Definition cancelling (o : TooltipOptions) (l : label) (st : State)
    : option flow :=
  match l with
  | MouseLeave _ =>
      if negb (mode o =? "touch")%string
         && initiatedIs (initiated st) "mouse"
      then Some MouseFlow else None
  | Blur _ =>
      if (mode o =? "keyboard")%string then Some KeyboardFlow else None
  | KeyDown event =>
      if (mode o =? "keyboard")%string
         && initiatedIs (initiated st) "keyboard"
         && (key event =? "Escape")%string
      then Some KeyboardFlow else None
  | _ => None
  end.

(** The events whose handler may start the timer of a flow again: the
    beginning of a new gesture. *)
Definition restarts (f : flow) (l : label) : bool :=
  match f, l with
  | MouseFlow, MouseEnter _ => true
  | KeyboardFlow, Focus _ => true
  | TouchFlow, WindowTouchEnd => true
  | _, _ => false
  end.

Definition flow_eqb (f g : flow) : bool :=
  match f, g with
  | MouseFlow, MouseFlow => true
  | KeyboardFlow, KeyboardFlow => true
  | TouchFlow, TouchFlow => true
  | _, _ => false
  end.

(** Nothing but time passing and the timer of flow [f] running its
    callback: no further input. *)
Definition idle (f : flow) (l : label) : bool :=
  match l with
  | Elapse _ => true
  | TimerFires g => flow_eqb f g
  | _ => false
  end.

(** The timer [t] was armed during the run [ls] from [st0]: some step of
    the run called [start] for flow [f], at the time and with the delay
    that [t] records. *)
Definition armedDuring (ls : list (TooltipOptions * label)) (st0 : State)
    (f : flow) (t : Timeout) : Prop :=
  exists ls1 o1 l1 ls2,
    ls = (ls1 ++ (o1, l1) :: ls2)%list
    /\ In (Did (TimerStart f)) (traceOf (step o1 l1 (stateOf (run ls1 st0))))
    /\ t = {| armedAt := now (stateOf (run ls1 st0)); wait := delayOf o1 f |}.

(** After the run [ls] from [st0], the step [l] is the timer of a flow
    running its callback: the timer is pending since a [start] of the run,
    its delay has elapsed, and [initiated.current] is the flow's mode. *)
Definition shownByTimer (st0 : State) (ls : list (TooltipOptions * label))
    (l : label) : Prop :=
  let st := stateOf (run ls st0) in
  exists f t,
    l = TimerFires f
    /\ timerOf f st = Some t
    /\ armedDuring ls st0 f t
    /\ armedAt t + wait t <= now st
    /\ initiated st = Some (modeOf f).

(** After the run [ls] from [st0], the step [l] is a [contextmenu] event
    on a touched element in touch mode. *)
Definition shownByContextMenu (st0 : State) (ls : list (TooltipOptions * label))
    (o : TooltipOptions) (l : label) : Prop :=
  let st := stateOf (run ls st0) in
  exists event,
    l = ContextMenu event /\ mode o = "touch" /\ touched st = true.

(** "[showTooltip] is called only after the configured delay has elapsed
    while the initiating interaction mode is still the current one", for
    the step [l] taken with options [o] after the run [ls] of a widget
    mounted with [o0]. *)
Definition shownOnlyAfterDelay (o0 : TooltipOptions)
    (ls : list (TooltipOptions * label)) (o : TooltipOptions) (l : label)
    : Prop :=
  In (Did ShowTooltip) (traceOf (step o l (stateOf (run ls (mount o0))))) ->
  shownByTimer (mount o0) ls l.

(** Once the timer of flow [f] is stopped in state [st], the deferred
    callback does not run and the tooltip does not become visible: the
    timer stays cleared as long as no new gesture starts it, a cleared timer
    runs nothing, and with no further input nothing shows the tooltip. *)
Definition showCancelled (f : flow) (st : State) : Prop :=
  (forall ls : list (TooltipOptions * label),
      forallb (fun ol => negb (restarts f (snd ol))) ls = true ->
      timerOf f (stateOf (run ls st)) = None
      /\ forall o, fire o f (stateOf (run ls st))
                   = (tt, stateOf (run ls st), []))
  /\ (forall ls : list (TooltipOptions * label),
         forallb (fun ol => idle f (snd ol)) ls = true ->
         ~ In (Did ShowTooltip) (traceOf (run ls st))
         /\ visible (stateOf (run ls st)) = false).

(** ** A widget to try things on *)

Definition exampleEvent : Event :=
  {| key := "Escape";
     currentTarget := {| tagName := "SPAN"; elementId := 1 |};
     targetIsActiveElement := false;
     selectionWithinTarget := false |}.

Definition exampleOptions (m : UserInteractionMode) : TooltipOptions :=
  {| mode := m;
     delay := 1000;
     disableHoverMode := Some true;
     hoverModeEnabled := false;
     hoverModeDelay := 0;
     mouse := {| onMouseEnter := Some 1; onMouseLeave := Some 2 |};
     keyboard := noKeyboardHandlers;
     touch := noTouchHandlers;
     hideResetsInitiated := true |}.

(** The pointer enters the element and stays for a second. *)
Definition hoverRun : list (TooltipOptions * label) :=
  [(exampleOptions "mouse", MouseEnter exampleEvent);
   (exampleOptions "mouse", Elapse 1000)].

(** A finger is put on the element. *)
Definition touchRun : list (TooltipOptions * label) :=
  [(exampleOptions "touch", TouchStart exampleEvent)].

(** The values the specification allows for the interaction mode. *)
Definition interactionModes : list TooltipInitiated :=
  [Some "mouse"; Some "keyboard"; Some "touch"; Some "window"; None].

Definition validInitiated (v : TooltipInitiated) : Prop :=
  In v interactionModes.

(** The values a trace writes through [setInitiated]. *)
Fixpoint initiatedWrites (tr : list (effect TooltipAction))
    : list TooltipInitiated :=
  match tr with
  | [] => []
  | Did (SetInitiated m) :: tr => m :: initiatedWrites tr
  | _ :: tr => initiatedWrites tr
  end.

End Tooltip.

(* ================================================================== *)
(** * Ripple: useRippleHandlers *)
(* ================================================================== *)

Module Ripple.
Import React.
Local Open Scope handler_scope.

(** [MergableRippleHandlers] *)
Module Handlers.
Record t (H : Type) : Type := {
  onKeyDown : option H;
  onKeyUp : option H;
  onMouseDown : option H;
  onMouseUp : option H;
  onMouseLeave : option H;
  onTouchStart : option H;
  onTouchMove : option H;
  onTouchEnd : option H;
  onClick : option H
}.

(** [handlers = {}] *)
Definition none (H : Type) : t H :=
  {| onKeyDown := None; onKeyUp := None; onMouseDown := None;
     onMouseUp := None; onMouseLeave := None; onTouchStart := None;
     onTouchMove := None; onTouchEnd := None; onClick := None |}.
End Handlers.

(** The calls of the three functions the hook is given. *)
Inductive RippleAction : Type :=
| Create (event : Event)
| Release (event : Event)
| Cancel (ease : bool).

Section Hook.

(** The ripple state that [create], [release] and [cancel] act on; it
    belongs to whoever supplies them. *)
Variable R : Type.

Record Options : Type := {
  create : Event -> R -> R;
  release : Event -> R -> R;
  cancel : bool -> R -> R;
  handlers : Handlers.t callback;
  disabled : bool;
  disableRipple : bool;
  disableProgrammaticRipple : bool
}.

Definition RippleHook (A : Type) : Type := M R RippleAction A.

(** [create(event)] *)
Definition callCreate (o : Options) (event : Event) : RippleHook unit :=
  perform (Create event) ;;
  modify (create o event).

(** [release(event)] *)
Definition callRelease (o : Options) (event : Event) : RippleHook unit :=
  perform (Release event) ;;
  modify (release o event).

(** [cancel(ease)] *)
Definition callCancel (o : Options) (ease : bool) : RippleHook unit :=
  perform (Cancel ease) ;;
  modify (cancel o ease).

Definition onKeyDown (o : Options) (event : Event) : RippleHook unit :=
  callIfPresent (Handlers.onKeyDown (handlers o)) event ;;
  callCreate o event.

Definition onKeyUp (o : Options) (event : Event) : RippleHook unit :=
  callIfPresent (Handlers.onKeyUp (handlers o)) event ;;
  callRelease o event.

Definition onMouseDown (o : Options) (event : Event) : RippleHook unit :=
  callIfPresent (Handlers.onMouseDown (handlers o)) event ;;
  callCreate o event.

Definition onMouseUp (o : Options) (event : Event) : RippleHook unit :=
  callIfPresent (Handlers.onMouseUp (handlers o)) event ;;
  callRelease o event.

Definition onMouseLeave (o : Options) (event : Event) : RippleHook unit :=
  callIfPresent (Handlers.onMouseLeave (handlers o)) event ;;
  callCancel o true.

Definition onTouchStart (o : Options) (event : Event) : RippleHook unit :=
  callIfPresent (Handlers.onTouchStart (handlers o)) event ;;
  callCreate o event.

Definition onTouchMove (o : Options) (event : Event) : RippleHook unit :=
  callIfPresent (Handlers.onTouchMove (handlers o)) event ;;
  callCancel o false.

Definition onTouchEnd (o : Options) (event : Event) : RippleHook unit :=
  callIfPresent (Handlers.onTouchEnd (handlers o)) event ;;
  callRelease o event.

Definition onClick (o : Options) (event : Event) : RippleHook unit :=
  callIfPresent (Handlers.onClick (handlers o)) event ;;
  if disableProgrammaticRipple o || targetIsActiveElement event
  then ret tt
  else callCreate o event.

Definition useRippleHandlers (o : Options)
    : Handlers.t (handler R RippleAction) :=
  let disabled := disabled o || disableRipple o in
  {|
     Handlers.onKeyDown :=
       if disabled
       then provided (Handlers.onKeyDown (handlers o))
       else Some (Merged (onKeyDown o));
     Handlers.onKeyUp :=
       if disabled
       then provided (Handlers.onKeyUp (handlers o))
       else Some (Merged (onKeyUp o));
     Handlers.onMouseDown :=
       if disabled
       then provided (Handlers.onMouseDown (handlers o))
       else Some (Merged (onMouseDown o));
     Handlers.onMouseUp :=
       if disabled
       then provided (Handlers.onMouseUp (handlers o))
       else Some (Merged (onMouseUp o));
     Handlers.onMouseLeave :=
       if disabled
       then provided (Handlers.onMouseLeave (handlers o))
       else Some (Merged (onMouseLeave o));
     Handlers.onTouchStart :=
       if disabled
       then provided (Handlers.onTouchStart (handlers o))
       else Some (Merged (onTouchStart o));
     Handlers.onTouchMove :=
       if disabled
       then provided (Handlers.onTouchMove (handlers o))
       else Some (Merged (onTouchMove o));
     Handlers.onTouchEnd :=
       if disabled
       then provided (Handlers.onTouchEnd (handlers o))
       else Some (Merged (onTouchEnd o));
     Handlers.onClick :=
       if disabled || disableProgrammaticRipple o
       then provided (Handlers.onClick (handlers o))
       else Some (Merged (onClick o))
  |}.

(** The event types the returned handlers are attached to. *)
Inductive eventType : Type :=
| keydown | keyup | mousedown | mouseup | mouseleave
| touchstart | touchmove | touchend | click.

Definition handlerFor {H : Type} (ty : eventType) (hs : Handlers.t H)
    : option H :=
  match ty with
  | keydown => Handlers.onKeyDown hs
  | keyup => Handlers.onKeyUp hs
  | mousedown => Handlers.onMouseDown hs
  | mouseup => Handlers.onMouseUp hs
  | mouseleave => Handlers.onMouseLeave hs
  | touchstart => Handlers.onTouchStart hs
  | touchmove => Handlers.onTouchMove hs
  | touchend => Handlers.onTouchEnd hs
  | click => Handlers.onClick hs
  end.

(** The closure the hook makes for an event type. *)
Definition merged (o : Options) (ty : eventType) : Event -> RippleHook unit :=
  match ty with
  | keydown => onKeyDown o
  | keyup => onKeyUp o
  | mousedown => onMouseDown o
  | mouseup => onMouseUp o
  | mouseleave => onMouseLeave o
  | touchstart => onTouchStart o
  | touchmove => onTouchMove o
  | touchend => onTouchEnd o
  | click => onClick o
  end.

(** The browser dispatching an event of type [ty] to the element that was
    given the returned handlers. *)
Definition handle (o : Options) (ty : eventType) (event : Event)
    : RippleHook unit :=
  dispatch (handlerFor ty (useRippleHandlers o)) event.

(** The options with another set of caller-supplied handlers. *)
Definition withHandlers (hs : Handlers.t callback) (o : Options) : Options :=
  {| create := create o; release := release o; cancel := cancel o;
     handlers := hs;
     disabled := disabled o; disableRipple := disableRipple o;
     disableProgrammaticRipple := disableProgrammaticRipple o |}.

End Hook.

(** The ripple effect is disabled for an event type: [disabled] or
    [disableRipple], and for clicks also [disableProgrammaticRipple]. *)
Definition rippleDisabledFor {R : Type} (o : Options R) (ty : eventType)
    : bool :=
  disabled o || disableRipple o
  || match ty with
     | click => disableProgrammaticRipple o
     | _ => false
     end.

(** Is a trace entry a call of [create], [release] or [cancel]? *)
Definition isRippleCall (e : effect RippleAction) : bool :=
  match e with
  | Did _ => true
  | Called _ _ => false
  end.

(** Down events create and up events release. *)
Definition isDown (ty : eventType) : bool :=
  match ty with
  | keydown | mousedown | touchstart => true
  | _ => false
  end.

Definition isUp (ty : eventType) : bool :=
  match ty with
  | keyup | mouseup | touchend => true
  | _ => false
  end.

(** ** The ripple of a gesture *)

(** Modelled from the spec: the functions [create], [release] and [cancel]
    are made by the ripple state hook and passed in.  A ripple is an
    "ephemeral animation record created on pointer/keyboard down, released
    on pointer/keyboard up, cancelled on leave; lifetime bounded to a single
    interaction gesture", and "creation/release pairs are idempotent per
    gesture": a gesture has at most one ripple, which is being held or has
    been released. *)
Inductive RippleState : Type :=
| NoRipple
| Holding (origin : Event)
| Released (origin : Event).

(** Modelled from the spec: a down event creates the ripple of the gesture
    unless the gesture is holding one already. *)
Definition createRipple (event : Event) (r : RippleState) : RippleState :=
  match r with
  | Holding origin => Holding origin
  | NoRipple | Released _ => Holding event
  end.

(** Modelled from the spec: an up event releases the ripple being held. *)
Definition releaseRipple (event : Event) (r : RippleState) : RippleState :=
  match r with
  | Holding origin => Released origin
  | NoRipple => NoRipple
  | Released origin => Released origin
  end.

(** Modelled from the spec: leaving cancels the ripple. *)
Definition cancelRipple (ease : bool) (r : RippleState) : RippleState :=
  NoRipple.

Definition rippleOptions (hs : Handlers.t callback)
    (disabled disableRipple disableProgrammaticRipple : bool)
    : Options RippleState :=
  {| create := createRipple; release := releaseRipple; cancel := cancelRipple;
     handlers := hs;
     disabled := disabled; disableRipple := disableRipple;
     disableProgrammaticRipple := disableProgrammaticRipple |}.

Definition exampleHandlers : Handlers.t callback :=
  {| Handlers.onKeyDown := Some 1; Handlers.onKeyUp := None;
     Handlers.onMouseDown := Some 2; Handlers.onMouseUp := Some 3;
     Handlers.onMouseLeave := None; Handlers.onTouchStart := None;
     Handlers.onTouchMove := None; Handlers.onTouchEnd := None;
     Handlers.onClick := Some 4 |}.

Definition pressEvent : Event :=
  {| key := "Enter";
     currentTarget := {| tagName := "DIV"; elementId := 7 |};
     targetIsActiveElement := false;
     selectionWithinTarget := false |}.

(** A press and a release of the mouse button. *)
Definition run_press : unit * RippleState * list (effect RippleAction) :=
  (handle (rippleOptions exampleHandlers false false false)
          mousedown pressEvent ;;
   handle (rippleOptions exampleHandlers false false false)
          mouseup pressEvent)%handler NoRipple.

End Ripple.

(* ================================================================== *)
(** * KeyboardClick: useKeyboardClickPolyfill *)
(* ================================================================== *)

Module KeyboardClick.
Import React.
Local Open Scope string_scope.
Local Open Scope handler_scope.

(** What the polyfill does to the event and its target. *)
Inductive ClickAction : Type :=
| PreventDefault
| StopPropagation
| Click.

(** The hook keeps no state of its own. *)
Definition ClickHook (A : Type) : Type := M unit ClickAction A.

Definition handleKeyDown (onKeyDown : option callback)
    (disableSpacebarClick : bool) (event : Event) : ClickHook unit :=
  callIfPresent onKeyDown event ;;
  let key := key event in
  let tagName := tagName (currentTarget event) in
  let isSpace := key =? " " in
  if (negb (key =? "Enter") && negb isSpace)
     || (tagName =? "BUTTON")
     || ((tagName =? "A") && isSpace)
     || (isSpace && disableSpacebarClick)
  then ret tt else
  when isSpace (perform PreventDefault) ;;
  perform StopPropagation ;;
  perform Click.

Definition useKeyboardClickPolyfill (onKeyDown : option callback)
    (disabled disableSpacebarClick : bool)
    : option (handler unit ClickAction) :=
  if disabled
  then provided onKeyDown
  else Some (Merged (handleKeyDown onKeyDown disableSpacebarClick)).

(** When the polyfill clicks, in the words of the specification: the key is
    Enter or Space, the target is not a button, it is not Space on a link,
    and it is not Space with the spacebar click disabled. *)
Definition clicks (disableSpacebarClick : bool) (event : Event) : bool :=
  let isEnter := key event =? "Enter" in
  let isSpace := key event =? " " in
  let tag := tagName (currentTarget event) in
  (isEnter || isSpace)
  && negb (tag =? "BUTTON")
  && negb ((tag =? "A") && isSpace)
  && negb (isSpace && disableSpacebarClick).

(** The trace of a synthetic click. *)
Definition syntheticClick (event : Event) : list (effect ClickAction) :=
  (if key event =? " " then [Did PreventDefault] else [])
  ++ [Did StopPropagation; Did Click].

(** A [keydown] event with a key on an element with a tag. *)
Definition keydown (k tag : string) : Event :=
  {| key := k;
     currentTarget := {| tagName := tag; elementId := 0 |};
     targetIsActiveElement := true;
     selectionWithinTarget := false |}.

End KeyboardClick.

(* ================================================================== *)
(** * Sample grids *)
(* ================================================================== *)

Module GridSamples.
Import Binary64 GridList.
Local Open Scope Q_scope.

(** An element whose width less the default padding is four cells of the
    default maximal size. *)
Definition narrowElement : HTMLDivElement double :=
  {| offsetWidth := ofZ 616; offsetHeight := ofZ 0; scrollHeight := ofZ 0 |}.

(** An element as wide as the test's, whose content overflows. *)
Definition overflowingElement : HTMLDivElement double :=
  {| offsetWidth := ofZ 1000; offsetHeight := ofZ 300;
     scrollHeight := ofZ 900 |}.

(** Figures at which rounding shows: 462 wide, padding 8.4, cells of at
    most 50.4. *)
Definition roundedElement : HTMLDivElement double :=
  {| offsetWidth := ofZ 462; offsetHeight := ofZ 0; scrollHeight := ofZ 0 |}.

Definition roundedProps : GridListProps double :=
  {| maxCellSize := ofQ (504 # 10);
     containerPadding := ofQ (84 # 10);
     defaultSize := None |}.

End GridSamples.

(* ================================================================== *)
(** * Gestures on a tooltip widget *)
(* ================================================================== *)

Module Gestures.
Import React Tooltip.
Local Open Scope string_scope.
Local Open Scope nat_scope.

(** The pointer enters the element, [ms] milliseconds pass, and the mouse
    timer gets its turn. *)
Definition hoverGesture (o : TooltipOptions) (event : Event) (ms : nat)
    : list (TooltipOptions * label) :=
  [(o, MouseEnter event); (o, Elapse ms); (o, TimerFires MouseFlow)].

(** The element is focused, [ms] milliseconds pass, and the keyboard timer
    gets its turn. *)
Definition focusGesture (o : TooltipOptions) (event : Event) (ms : nat)
    : list (TooltipOptions * label) :=
  [(o, Focus event); (o, Elapse ms); (o, TimerFires KeyboardFlow)].

(** A finger is put on the element and held until the context menu event
    arrives. *)
Definition longPress (o : TooltipOptions) (event : Event)
    : list (TooltipOptions * label) :=
  [(o, TouchStart event); (o, ContextMenu event)].

(** The finger stays where it is for [ms] milliseconds, and the touch timer
    gets its turn. *)
Definition keepFinger (o : TooltipOptions) (ms : nat)
    : list (TooltipOptions * label) :=
  [(o, Elapse ms); (o, TimerFires TouchFlow)].

(** The finger is lifted, [ms] milliseconds pass, and the touch timer gets
    its turn. *)
Definition liftFinger (o : TooltipOptions) (ms : nat)
    : list (TooltipOptions * label) :=
  (o, WindowTouchEnd) :: keepFinger o ms.

(** The events whose merged handler is not attached in the current mode:
    the mouse events in touch mode, the keyboard events and the window's
    [visibilitychange] outside keyboard mode, the context menu outside
    touch mode. *)
Definition foreign (o : TooltipOptions) (l : label) : bool :=
  match l with
  | MouseEnter _ | MouseLeave _ => (mode o =? "touch")%string
  | Focus _ | Blur _ | KeyDown _ | VisibilityChange _ =>
      negb (mode o =? "keyboard")%string
  | ContextMenu _ => negb (mode o =? "touch")%string
  | _ => false
  end.

(** The call of the caller's own handler for an event on the element. *)
Definition callerTrace (o : TooltipOptions) (l : label)
    : list (effect TooltipAction) :=
  match l with
  | MouseEnter event => userCall (onMouseEnter (mouse o)) event
  | MouseLeave event => userCall (onMouseLeave (mouse o)) event
  | Focus event => userCall (onFocus (keyboard o)) event
  | Blur event => userCall (onBlur (keyboard o)) event
  | KeyDown event => userCall (onKeyDown (keyboard o)) event
  | TouchStart event => userCall (onTouchStart (touch o)) event
  | TouchMove event => userCall (onTouchMove (touch o)) event
  | ContextMenu event => userCall (onContextMenu (touch o)) event
  | _ => []
  end.

(** A tooltip is visible only once it has been initiated. *)
Definition initiatedWhenVisible (st : State) : Prop :=
  initiated st = None -> visible st = false.

(** Options for keyboard users who also supply a focus handler. *)
Definition keyboardOptions : TooltipOptions :=
  withCallbacks noMouseHandlers
    {| onFocus := Some 3; onBlur := None; onKeyDown := None |}
    noTouchHandlers (exampleOptions "keyboard").

End Gestures.

(* ================================================================== *)
(** * Tooltip: useVisiblityChange *)
(* ================================================================== *)

Module VisibilityChange.
Import React.

(** [VisibilityChangeOptions] *)
Record VisibilityChangeOptions : Type := {
  onShow : option callback;
  onHide : option callback;
  mode : Tooltip.TooltipInitiated;
  visible : bool
}.

(** The calls the hook makes. *)
Inductive call : Type :=
| ShowCalled (cb : callback) (m : Tooltip.UserInteractionMode)
| HideCalled (cb : callback).

(** What React keeps for the effect between renders: the dependencies
    [[visible]] of its last run ([None] before the first render) and whether
    that run returned the clean-up function. *)
Record EffectState : Type := {
  deps : option bool;
  cleanup : bool
}.

Definition unmounted : EffectState := {| deps := None; cleanup := false |}.

(** [if (onShow) { onShow(mode); }] *)
Definition callOnShow (o : VisibilityChangeOptions)
    (m : Tooltip.UserInteractionMode) : list call :=
  match onShow o with
  | Some cb => [ShowCalled cb m]
  | None => []
  end.

(** The clean-up function: [if (onHide) { onHide(); }] *)
Definition callOnHide (o : VisibilityChangeOptions) : list call :=
  match onHide o with
  | Some cb => [HideCalled cb]
  | None => []
  end.

Definition depsChanged (st : EffectState) (v : bool) : bool :=
  match deps st with
  | Some v' => negb (Bool.eqb v v')
  | None => true
  end.

(** One render of [useVisiblityChange]: when [visible] has changed since
    the effect last ran (or on the first render), the clean-up of the last
    run is called if there is one, and the body runs: it returns without a
    clean-up when the tooltip is not visible or the mode is [null], and
    calls [onShow] with the mode and returns the clean-up otherwise. *)
Definition render (o : VisibilityChangeOptions) (st : EffectState)
    : EffectState * list call :=
  if depsChanged st (visible o) then
    let cleaned := if cleanup st then callOnHide o else [] in
    match visible o, mode o with
    | true, Some m =>
        ({| deps := Some (visible o); cleanup := true |},
         cleaned ++ callOnShow o m)
    | _, _ =>
        ({| deps := Some (visible o); cleanup := false |}, cleaned)
    end
  else (st, []).

(** Unmounting runs the clean-up of the last run. *)
Definition unmount (o : VisibilityChangeOptions) (st : EffectState)
    : list call :=
  if cleanup st then callOnHide o else [].

(** The renders of a component that always passes the same handlers: only
    [visible] and [mode] vary. *)
Definition withState (o : VisibilityChangeOptions)
    (vm : bool * Tooltip.TooltipInitiated) : VisibilityChangeOptions :=
  {| onShow := onShow o; onHide := onHide o;
     mode := snd vm; visible := fst vm |}.

Fixpoint renders (o : VisibilityChangeOptions)
    (vms : list (bool * Tooltip.TooltipInitiated)) (st : EffectState)
    : EffectState * list call :=
  match vms with
  | [] => (st, [])
  | vm :: vms =>
      let '(st1, tr1) := render (withState o vm) st in
      let '(st2, tr2) := renders o vms st1 in
      (st2, tr1 ++ tr2)
  end.

(** The whole life of a component: mounted, rendered, unmounted. *)
Definition lifetime (o : VisibilityChangeOptions)
    (vms : list (bool * Tooltip.TooltipInitiated)) : list call :=
  let '(st, tr) := renders o vms unmounted in
  tr ++ unmount o st.

(** A trace in which shows and hides take turns; [shown] tells whether the
    last call before it was a show. *)
Fixpoint takesTurns (shown : bool) (tr : list call) : bool :=
  match tr with
  | [] => true
  | ShowCalled _ _ :: tr => negb shown && takesTurns true tr
  | HideCalled _ :: tr => shown && takesTurns false tr
  end.

Fixpoint countShows (tr : list call) : nat :=
  match tr with
  | [] => 0
  | ShowCalled _ _ :: tr => S (countShows tr)
  | HideCalled _ :: tr => countShows tr
  end.

Fixpoint countHides (tr : list call) : nat :=
  match tr with
  | [] => 0
  | ShowCalled _ _ :: tr => countHides tr
  | HideCalled _ :: tr => S (countHides tr)
  end.

(** The modes [onShow] was called with. *)
Fixpoint shownModes (tr : list call) : list Tooltip.UserInteractionMode :=
  match tr with
  | [] => []
  | ShowCalled _ m :: tr => m :: shownModes tr
  | HideCalled _ :: tr => shownModes tr
  end.

Definition bothHandlers (cbShow cbHide : callback) : VisibilityChangeOptions :=
  {| onShow := Some cbShow; onHide := Some cbHide;
     mode := None; visible := false |}.

End VisibilityChange.

(* ================================================================== *)
(** * Sequences of events on an element with ripples *)
(* ================================================================== *)

Module RippleSequences.
Import React Ripple.
Local Open Scope handler_scope.

(** The browser dispatching the events of a list, in order, to the element
    that was given the returned handlers. *)
Fixpoint handleAll {R : Type} (o : Options R)
    (evs : list (eventType * Event)) : RippleHook R unit :=
  match evs with
  | [] => ret tt
  | (ty, event) :: evs => handle o ty event ;; handleAll o evs
  end.

(** A click with the mouse on the element. *)
Definition mouseClick (event : Event) : list (eventType * Event) :=
  [(mousedown, event); (mouseup, event); (click, event)].

(** A tap with a finger on the element. *)
Definition tap (event : Event) : list (eventType * Event) :=
  [(touchstart, event); (touchend, event); (click, event)].

(** The ripple calls the hook makes for one event, by its type alone. *)
Definition rippleCallFor (disableProgrammaticRipple : bool)
    (ty : eventType) (event : Event) : list RippleAction :=
  match ty with
  | keydown | mousedown | touchstart => [Create event]
  | keyup | mouseup | touchend => [Release event]
  | mouseleave => [Cancel true]
  | touchmove => [Cancel false]
  | click =>
      if disableProgrammaticRipple || targetIsActiveElement event
      then [] else [Create event]
  end.

(** An event on the element that has the focus. *)
Definition focusedPress : Event :=
  {| key := "";
     currentTarget := {| tagName := "DIV"; elementId := 7 |};
     targetIsActiveElement := true;
     selectionWithinTarget := false |}.

End RippleSequences.

(* ================================================================== *)
(** * Properties of the doubles *)
(* ================================================================== *)

Module Binary64Theory.
Import Binary64.
Local Open Scope Q_scope.

(** ** Powers of two and magnitudes *)

Lemma pow2_pos e : 0 < pow2 e.
Proof. apply Qpower_0_lt. reflexivity. Qed.

Lemma pow2_le a b : (a <= b)%Z -> pow2 a <= pow2 b.
Proof. intros H. apply Qpower_le_compat_l; [exact H | discriminate]. Qed.

Lemma pow2_lt a b : (a < b)%Z -> pow2 a < pow2 b.
Proof. intros H. apply Qpower_lt_compat_l; [exact H | reflexivity]. Qed.

Lemma pow2_plus a b : pow2 (a + b) == pow2 a * pow2 b.
Proof. apply Qpower_plus. discriminate. Qed.

Lemma pow2_Z k : (0 <= k)%Z -> pow2 k == inject_Z (2 ^ k).
Proof.
  intros H. unfold pow2. rewrite Zpower_Qpower by exact H. reflexivity.
Qed.

Lemma pow2_quotient a b :
  (b <= a)%Z -> pow2 a / pow2 b == inject_Z (2 ^ (a - b)).
Proof.
  intros H. rewrite <- pow2_Z by lia.
  replace a with ((a - b) + b)%Z at 1 by ring.
  rewrite pow2_plus.
  generalize (pow2_pos b). generalize (pow2 b) (pow2 (a - b)). intros x y P.
  field. lra.
Qed.

Lemma Qmake_pos_num n d : 0 < n # d -> (0 < n)%Z.
Proof. unfold Qlt. cbn. lia. Qed.

(** [mag] is the magnitude. *)
Lemma mag_spec q : 0 < q -> pow2 (mag q - 1) <= q /\ q < pow2 (mag q).
Proof.
  destruct q as [n d]. intros Hq. pose proof (Qmake_pos_num Hq) as Hn.
  unfold mag. cbn [Qnum Qden].
  set (a := Z.log2 n). set (b := Z.log2 (Z.pos d)).
  destruct (Z.log2_spec n Hn) as [Ha1 Ha2]. fold a in Ha1, Ha2.
  destruct (Z.log2_spec (Z.pos d) (Pos2Z.is_pos d)) as [Hb1 Hb2].
  fold b in Hb1, Hb2.
  assert (Ha : (0 <= a)%Z) by apply Z.log2_nonneg.
  assert (Hb : (0 <= b)%Z) by apply Z.log2_nonneg.
  assert (Hlow : pow2 (a - b - 1) <= n # d).
  { assert (E : pow2 (a - b - 1) == inject_Z (2 ^ a) / inject_Z (2 ^ (b + 1))).
    { rewrite <- !pow2_Z by lia.
      replace a with ((a - b - 1) + (b + 1))%Z at 2 by ring.
      rewrite (pow2_plus (a - b - 1) (b + 1)).
      generalize (pow2_pos (b + 1)).
      generalize (pow2 (b + 1)) (pow2 (a - b - 1)). intros x y P.
      field. lra. }
    rewrite E. apply Qle_shift_div_r.
    - rewrite <- pow2_Z by lia. apply pow2_pos.
    - unfold Qle, Qmult, inject_Z. cbn [Qnum Qden].
      rewrite Pos.mul_1_r, Z.mul_1_r.
      replace (Z.succ b) with (b + 1)%Z in Hb2 by lia.
      apply Z.mul_le_mono_nonneg; lia. }
  assert (Hhigh : n # d < pow2 (a - b + 1)).
  { assert (E : pow2 (a - b + 1) == inject_Z (2 ^ (a + 1)) / inject_Z (2 ^ b)).
    { rewrite <- !pow2_Z by lia.
      replace (a + 1)%Z with ((a - b + 1) + b)%Z by ring.
      rewrite (pow2_plus (a - b + 1) b).
      generalize (pow2_pos b).
      generalize (pow2 b) (pow2 (a - b + 1)). intros x y P.
      field. lra. }
    rewrite E. apply Qlt_shift_div_l.
    - rewrite <- pow2_Z by lia. apply pow2_pos.
    - unfold Qlt, Qmult, inject_Z. cbn [Qnum Qden].
      rewrite Pos.mul_1_r, Z.mul_1_r.
      assert (0 < 2 ^ b)%Z by (apply Z.pow_pos_nonneg; lia).
      replace (Z.succ a) with (a + 1)%Z in Ha2 by lia.
      apply Z.le_lt_trans with (n * Z.pos d)%Z.
      + apply Z.mul_le_mono_nonneg_l; lia.
      + apply Z.mul_lt_mono_pos_r; lia. }
  destruct (Qle_bool (pow2 (a - b)) (n # d)) eqn:E.
  - apply Qle_bool_iff in E. split.
    + replace (a - b + 1 - 1)%Z with (a - b)%Z by ring. exact E.
    + exact Hhigh.
  - split.
    + exact Hlow.
    + apply Qnot_le_lt. intros H. apply Qle_bool_iff in H. congruence.
Qed.

Lemma mag_monotone q1 q2 : 0 < q1 -> q1 <= q2 -> (mag q1 <= mag q2)%Z.
Proof.
  intros H1 H12.
  destruct (mag_spec H1) as [L1 _].
  destruct (@mag_spec q2) as [_ U2]; [lra|].
  destruct (Z_le_gt_dec (mag q1) (mag q2)) as [H|H]; [exact H|].
  assert (pow2 (mag q2) <= pow2 (mag q1 - 1)) by (apply pow2_le; lia).
  lra.
Qed.

Lemma fexp_monotone a b : (a <= b)%Z -> (fexp a <= fexp b)%Z.
Proof. unfold fexp, prec, emin. lia. Qed.

Lemma nearestEven_bounds x :
  (Qfloor x <= nearestEven x <= Qfloor x + 1)%Z.
Proof.
  unfold nearestEven.
  destruct (Qcompare (x - inject_Z (Qfloor x)) (1 # 2));
    try destruct (Z.even (Qfloor x)); lia.
Qed.

Lemma nearestEven_monotone x y :
  x <= y -> (nearestEven x <= nearestEven y)%Z.
Proof.
  intros H. pose proof (Qfloor_resp_le _ _ H) as Hf.
  destruct (Z.eq_dec (Qfloor x) (Qfloor y)) as [E|E].
  - unfold nearestEven. rewrite <- E.
    destruct (Qcompare_spec (x - inject_Z (Qfloor x)) (1 # 2)) as [X|X|X];
      destruct (Qcompare_spec (y - inject_Z (Qfloor x)) (1 # 2)) as [Y|Y|Y];
      try destruct (Z.even (Qfloor x)); try lia; exfalso; lra.
  - pose proof (nearestEven_bounds x). pose proof (nearestEven_bounds y). lia.
Qed.

Lemma nearestEven_Z k : nearestEven (inject_Z k) = k.
Proof.
  unfold nearestEven. rewrite Qfloor_Z.
  destruct (Qcompare_spec (inject_Z k - inject_Z k) (1 # 2)) as [X|X|X];
    [exfalso; lra | reflexivity | exfalso; lra].
Qed.

Lemma nearestEven_upper x k : x <= inject_Z k -> (nearestEven x <= k)%Z.
Proof.
  intros H. rewrite <- (nearestEven_Z k). apply nearestEven_monotone, H.
Qed.

Lemma nearestEven_lower x k : inject_Z k <= x -> (k <= nearestEven x)%Z.
Proof.
  intros H. rewrite <- (nearestEven_Z k). apply nearestEven_monotone, H.
Qed.

Lemma ulp_pos q : 0 < ulp q.
Proof. apply pow2_pos. Qed.

Lemma roundPositive_nonneg q : 0 <= q -> 0 <= roundPositive q.
Proof.
  intros H. unfold roundPositive. apply Qmult_le_0_compat.
  - change 0 with (inject_Z 0). rewrite <- Zle_Qle.
    apply nearestEven_lower. apply Qle_shift_div_l; [apply ulp_pos|].
    change (inject_Z 0) with 0. rewrite Qmult_0_l. exact H.
  - apply Qlt_le_weak, ulp_pos.
Qed.

Lemma roundPositive_upper q :
  0 < q -> roundPositive q <= pow2 (Z.max (mag q) (fexp (mag q))).
Proof.
  intros H. destruct (mag_spec H) as [_ U].
  set (e := mag q) in *. unfold roundPositive, ulp. fold e.
  set (u := pow2 (fexp e)). assert (Hu : 0 < u) by apply pow2_pos.
  set (B := pow2 (Z.max e (fexp e))).
  assert (HB : q <= B).
  { apply Qle_trans with (pow2 e); [lra | apply pow2_le; lia]. }
  assert (HK : B / u == inject_Z (2 ^ (Z.max e (fexp e) - fexp e))).
  { apply pow2_quotient. lia. }
  assert (Hn : (nearestEven (q / u) <= 2 ^ (Z.max e (fexp e) - fexp e))%Z).
  { apply nearestEven_upper. rewrite <- HK.
    apply Qle_shift_div_l; [exact Hu|].
    setoid_replace (q / u * u) with q by (field; lra). exact HB. }
  apply Qle_trans with (inject_Z (2 ^ (Z.max e (fexp e) - fexp e)) * u).
  - apply Qmult_le_compat_r; [rewrite <- Zle_Qle; exact Hn | lra].
  - rewrite <- HK. setoid_replace (B / u * u) with B by (field; lra).
    lra.
Qed.

Lemma roundPositive_lower q :
  0 < q -> (fexp (mag q) < mag q)%Z -> pow2 (mag q - 1) <= roundPositive q.
Proof.
  intros H Hn. destruct (mag_spec H) as [L _].
  set (e := mag q) in *. unfold roundPositive, ulp. fold e.
  set (u := pow2 (fexp e)). assert (Hu : 0 < u) by apply pow2_pos.
  set (B := pow2 (e - 1)) in *.
  assert (HK : B / u == inject_Z (2 ^ (e - 1 - fexp e))).
  { apply pow2_quotient. lia. }
  assert (Hk : (2 ^ (e - 1 - fexp e) <= nearestEven (q / u))%Z).
  { apply nearestEven_lower. rewrite <- HK.
    apply Qle_shift_div_r; [exact Hu|].
    setoid_replace (q / u * u) with q by (field; lra). exact L. }
  apply Qle_trans with (inject_Z (2 ^ (e - 1 - fexp e)) * u).
  - rewrite <- HK. setoid_replace (B / u * u) with B by (field; lra).
    lra.
  - apply Qmult_le_compat_r; [rewrite <- Zle_Qle; exact Hk | lra].
Qed.

(** Rounding keeps the order of the positive rationals.  Within one
    binade the two are rounded on the same grid; from one binade to a higher
    one, the power of two between them is on both grids. *)
Lemma roundPositive_monotone q1 q2 :
  0 < q1 -> q1 <= q2 -> roundPositive q1 <= roundPositive q2.
Proof.
  intros H1 H12. assert (H2 : 0 < q2) by lra.
  pose proof (mag_monotone H1 H12) as Hm.
  pose proof (fexp_monotone Hm) as Hf.
  destruct (Z.eq_dec (fexp (mag q1)) (fexp (mag q2))) as [E|E].
  - unfold roundPositive, ulp. rewrite E.
    set (u := pow2 (fexp (mag q2))). assert (Hu : 0 < u) by apply pow2_pos.
    apply Qmult_le_compat_r; [|lra].
    rewrite <- Zle_Qle. apply nearestEven_monotone.
    apply Qmult_le_compat_r; [exact H12|].
    apply Qlt_le_weak, Qinv_lt_0_compat, Hu.
  - apply Qle_trans with (pow2 (Z.max (mag q1) (fexp (mag q1)))).
    + apply roundPositive_upper, H1.
    + apply Qle_trans with (pow2 (mag q2 - 1)).
      * apply pow2_le. unfold fexp, prec, emin in *. lia.
      * apply roundPositive_lower; [exact H2|].
        unfold fexp, prec, emin in *. lia.
Qed.

(** ** The order of the doubles; rounding keeps it *)

Lemma isNegative_pos q : 0 < q -> isNegative q = false.
Proof.
  destruct q as [n d]. unfold Qlt, isNegative. cbn. intros H.
  apply Z.ltb_ge. lia.
Qed.

Lemma isNegative_neg q : q < 0 -> isNegative q = true.
Proof.
  destruct q as [n d]. unfold Qlt, isNegative. cbn. intros H.
  apply Z.ltb_lt. lia.
Qed.

Lemma Qabs_pos_eq q : 0 <= q -> Qabs q = q.
Proof.
  destruct q as [n d]. unfold Qle, Qabs. cbn. intros H.
  rewrite Z.abs_eq by lia. reflexivity.
Qed.

Lemma Qabs_neg_eq q : q < 0 -> Qabs q = - q.
Proof.
  destruct q as [n d]. unfold Qlt, Qabs, Qopp. cbn. intros H.
  rewrite Z.abs_neq by lia. reflexivity.
Qed.

Lemma Qopp_opp_eq q : - - q = q.
Proof.
  destruct q as [n d]. unfold Qopp. cbn. rewrite Z.opp_involutive.
  reflexivity.
Qed.

Lemma Qle_bool_false x y : Qle_bool x y = false -> y < x.
Proof.
  intros H. apply Qnot_le_lt. intros L. apply Qle_bool_iff in L. congruence.
Qed.

(** Turns the boolean comparisons of a goal and its hypotheses into
    propositions. *)
Ltac bool_to_Q :=
  repeat match goal with
  | H : Qle_bool _ _ = true |- _ => apply Qle_bool_iff in H
  | H : Qle_bool _ _ = false |- _ => apply Qle_bool_false in H
  | H : Qeq_bool _ _ = true |- _ => apply Qeq_bool_eq in H
  | H : Qeq_bool _ _ = false |- _ => apply Qeq_bool_neq in H
  | H : negb _ = true |- _ => apply negb_true_iff in H
  | H : negb _ = false |- _ => apply negb_false_iff in H
  | |- negb _ = true => apply negb_true_iff
  | |- Qle_bool _ _ = true => apply Qle_bool_iff
  | |- Qle_bool _ _ = false =>
      apply not_true_is_false; intros ?
  end.

Lemma round_pos q :
  0 < q ->
  round q =
    if Qeq_bool (roundPositive q) 0 then Zero false
    else if Qle_bool (pow2 emax) (roundPositive q) then Infinity false
    else Finite (Qred (roundPositive q)).
Proof.
  intros H. unfold round. rewrite isNegative_pos by exact H.
  rewrite Qabs_pos_eq by lra. reflexivity.
Qed.

Lemma round_neg q : q < 0 -> round q = dneg (round (- q)).
Proof.
  intros H. unfold round.
  rewrite isNegative_neg by exact H.
  rewrite (@isNegative_pos (- q)) by lra.
  rewrite (Qabs_neg_eq H), (@Qabs_pos_eq (- q)) by lra.
  destruct (Qeq_bool (roundPositive (- q)) 0); [reflexivity|].
  destruct (Qle_bool (pow2 emax) (roundPositive (- q))); [reflexivity|].
  cbn [withSign dneg]. rewrite Qred_opp. reflexivity.
Qed.

Lemma nearestEven_comp x y : x == y -> nearestEven x = nearestEven y.
Proof.
  intros E. unfold nearestEven. rewrite (Qfloor_comp _ _ E).
  assert (C : (x - inject_Z (Qfloor y) ?= 1 # 2)
              = (y - inject_Z (Qfloor y) ?= 1 # 2)).
  { apply Qcompare_comp; [rewrite E|]; reflexivity. }
  rewrite C. reflexivity.
Qed.

Lemma roundPositive_zero q : q == 0 -> roundPositive q == 0.
Proof.
  intros E. unfold roundPositive.
  rewrite (@nearestEven_comp (q / ulp q) (inject_Z 0)).
  - rewrite nearestEven_Z. apply Qmult_0_l.
  - unfold Qdiv. generalize (/ ulp q). intros v. rewrite E. apply Qmult_0_l.
Qed.

Lemma round_zero q : q == 0 -> round q = Zero false.
Proof.
  intros E. unfold round.
  assert (N : isNegative q = false).
  { destruct q as [n d]. unfold Qeq in E. cbn in E. unfold isNegative. cbn.
    apply Z.ltb_ge. lia. }
  rewrite N, Qabs_pos_eq by lra.
  assert (R : Qeq_bool (roundPositive q) 0 = true).
  { apply Qeq_bool_iff, roundPositive_zero, E. }
  rewrite R. reflexivity.
Qed.

Lemma round_not_NaN q : round q <> NaN.
Proof.
  unfold round.
  destruct (Qeq_bool _ 0); [discriminate|].
  destruct (Qle_bool _ _); discriminate.
Qed.

Lemma round_monotone_pos q1 q2 :
  0 < q1 -> q1 <= q2 -> dleb (round q1) (round q2) = true.
Proof.
  intros H1 H12. assert (H2 : 0 < q2) by lra.
  rewrite (round_pos H1), (round_pos H2).
  pose proof (roundPositive_monotone H1 H12) as M.
  pose proof (@roundPositive_nonneg q1) as N1.
  pose proof (@roundPositive_nonneg q2) as N2.
  set (r1 := roundPositive q1) in *. set (r2 := roundPositive q2) in *.
  destruct (Qeq_bool r1 0) eqn:Z1; destruct (Qeq_bool r2 0) eqn:Z2;
    destruct (Qle_bool (pow2 emax) r1) eqn:O1;
    destruct (Qle_bool (pow2 emax) r2) eqn:O2;
    cbn [dleb negb orb]; try reflexivity; bool_to_Q;
    rewrite ?Qred_correct in *; try lra.
  all: pose proof (pow2_pos emax); try lra.
Qed.

Lemma dleb_refl x : x <> NaN -> dleb x x = true.
Proof.
  destruct x as [|s|s|q]; intros H; cbn.
  - congruence.
  - destruct s; reflexivity.
  - reflexivity.
  - bool_to_Q. lra.
Qed.

Lemma dleb_dneg x y : dleb (dneg x) (dneg y) = dleb y x.
Proof.
  destruct x as [|sx|sx|a], y as [|sy|sy|b]; cbn; try reflexivity;
    try (destruct sx; reflexivity); try (destruct sy; reflexivity).
  - destruct sx, sy; reflexivity.
  - apply eq_true_iff_eq. rewrite !Qle_bool_iff. split; intros; lra.
  - apply eq_true_iff_eq. rewrite !Qle_bool_iff. split; intros; lra.
  - apply eq_true_iff_eq. rewrite !Qle_bool_iff. split; intros; lra.
Qed.

Lemma dleb_trans x y z :
  dleb x y = true -> dleb y z = true -> dleb x z = true.
Proof.
  destruct x as [|sx|sx|a], y as [|sy|sy|b], z as [|sz|sz|c]; cbn;
    intros H1 H2; try discriminate; try reflexivity;
    try (destruct sx); try (destruct sy); try (destruct sz);
    try discriminate; try reflexivity; bool_to_Q; lra.
Qed.

Lemma round_nonneg q s : 0 <= q -> dleb (Zero s) (round q) = true.
Proof.
  intros H. destruct (Qlt_le_dec 0 q) as [P|P].
  - rewrite (round_pos P).
    pose proof (roundPositive_nonneg H) as N.
    destruct (Qeq_bool _ 0); [reflexivity|].
    destruct (Qle_bool _ _); [reflexivity|].
    cbn [dleb]. bool_to_Q. rewrite Qred_correct. exact N.
  - rewrite round_zero by lra. reflexivity.
Qed.

Lemma round_nonpos q s : q <= 0 -> dleb (round q) (Zero s) = true.
Proof.
  intros H. destruct (Qlt_le_dec q 0) as [P|P].
  - rewrite (round_neg P).
    rewrite <- (negb_involutive s).
    change (Zero (negb (negb s))) with (dneg (Zero (negb s))).
    rewrite dleb_dneg. apply round_nonneg. lra.
  - rewrite round_zero by lra. reflexivity.
Qed.

(** Rounding is monotone, overflow to an infinity and underflow to a zero
    included. *)
Lemma round_monotone q1 q2 :
  q1 <= q2 -> dleb (round q1) (round q2) = true.
Proof.
  intros H. destruct (Qlt_le_dec 0 q1) as [P1|P1].
  - apply round_monotone_pos; assumption.
  - destruct (Qlt_le_dec q2 0) as [P2|P2].
    + rewrite (round_neg P2), (@round_neg q1) by lra.
      rewrite dleb_dneg. apply round_monotone_pos; lra.
    + apply dleb_trans with (Zero false).
      * apply round_nonpos, P1.
      * apply round_nonneg, P2.
Qed.

Lemma dleb_Infinity_true x : x <> NaN -> dleb (Infinity true) x = true.
Proof. destruct x; intros; cbn; congruence. Qed.

Lemma dleb_Infinity_false x : x <> NaN -> dleb x (Infinity false) = true.
Proof.
  destruct x as [|s|s|q]; intros; cbn; try congruence.
  destruct s; reflexivity.
Qed.

(** [Math.ceil] is monotone. *)
Lemma dceil_monotone x y :
  dleb x y = true -> dleb (dceil x) (dceil y) = true.
Proof.
  destruct x as [|sx|sx|a], y as [|sy|sy|b]; cbn [dceil dleb];
    intros H; try discriminate; try exact H;
    repeat match goal with
    | |- context [(?n =? 0)%Z] => destruct (Z.eqb_spec n 0)
    end;
    cbn [dleb]; try exact H; try reflexivity; bool_to_Q;
    change 0 with (inject_Z 0) in H;
    apply Qceiling_resp_le in H; rewrite ?Qceiling_Z in H;
    try (change 0 with (inject_Z 0)); rewrite <- Zle_Qle; lia.
Qed.

(** ** Values that rounding leaves alone *)

Lemma mag_unique q e :
  0 < q -> pow2 (e - 1) <= q -> q < pow2 e -> mag q = e.
Proof.
  intros H L U. destruct (mag_spec H) as [L' U'].
  destruct (Z.lt_trichotomy (mag q) e) as [C|[C|C]]; [|exact C|].
  - assert (pow2 (mag q) <= pow2 (e - 1)) by (apply pow2_le; lia). lra.
  - assert (pow2 e <= pow2 (mag q - 1)) by (apply pow2_le; lia). lra.
Qed.

Lemma mag_comp x y : 0 < x -> x == y -> mag x = mag y.
Proof.
  intros H E. assert (Hy : 0 < y) by (rewrite <- E; exact H).
  destruct (mag_spec Hy) as [L U].
  apply mag_unique; [exact H | rewrite E; exact L | rewrite E; exact U].
Qed.

Lemma roundPositive_comp x y :
  0 < x -> x == y -> roundPositive x = roundPositive y.
Proof.
  intros H E. unfold roundPositive, ulp. rewrite (mag_comp H E).
  rewrite (@nearestEven_comp (x / pow2 (fexp (mag y)))
             (y / pow2 (fexp (mag y)))); [reflexivity|].
  rewrite E. reflexivity.
Qed.

Lemma round_comp x y : x == y -> round x = round y.
Proof.
  intros E. destruct (Q_dec 0 x) as [[P|P]|P].
  - assert (Py : 0 < y) by (rewrite <- E; exact P).
    rewrite (round_pos P), (round_pos Py), (roundPositive_comp P E).
    reflexivity.
  - assert (Py : y < 0) by (rewrite <- E; exact P).
    rewrite (round_neg P), (round_neg Py). f_equal.
    assert (P' : 0 < - x) by lra.
    assert (Py' : 0 < - y) by lra.
    assert (E' : - x == - y) by (rewrite E; reflexivity).
    rewrite (round_pos P'), (round_pos Py'), (roundPositive_comp P' E').
    reflexivity.
  - rewrite (@round_zero x), (@round_zero y);
      [reflexivity | rewrite <- E | ]; symmetry; exact P.
Qed.

(** A positive rational that is a whole number of units in the last place
    is left alone by rounding. *)
Lemma roundPositive_exact q j :
  0 < q -> q == inject_Z j * ulp q -> roundPositive q == q.
Proof.
  intros H E. unfold roundPositive.
  rewrite (@nearestEven_comp (q / ulp q) (inject_Z j)).
  - rewrite nearestEven_Z. symmetry. exact E.
  - pose proof (ulp_pos q) as U. revert E U. generalize (ulp q).
    intros u E U. rewrite E. field. lra.
Qed.

Lemma roundPositive_idempotent q :
  0 < q -> 0 < roundPositive q ->
  roundPositive (roundPositive q) == roundPositive q.
Proof.
  intros H R.
  pose proof (roundPositive_upper H) as U.
  set (e := mag q) in *. set (f := fexp e) in *.
  set (E := Z.max e f) in *.
  assert (Hf : (emin <= f)%Z) by (unfold f, fexp; lia).
  destruct (Qlt_le_dec (roundPositive q) (pow2 E)) as [C|C].
  - assert (Hn : (f < e)%Z).
    { destruct (Z_lt_le_dec f e) as [L|L]; [exact L|]. exfalso.
      assert (EE : E = f) by (unfold E; lia). rewrite EE in C.
      unfold roundPositive, ulp in C, R. fold e in C, R. fold f in C, R.
      pose proof (pow2_pos f) as Pf.
      set (n := nearestEven (q / pow2 f)) in *.
      assert (N1 : inject_Z n < 1).
      { apply Qmult_lt_r with (pow2 f); [exact Pf|]. lra. }
      assert (N0 : 0 < inject_Z n).
      { apply Qmult_lt_r with (pow2 f); [exact Pf|]. lra. }
      change 1 with (inject_Z 1) in N1. change 0 with (inject_Z 0) in N0.
      rewrite <- Zlt_Qlt in N1, N0. lia. }
    assert (EE : E = e) by (unfold E; lia). rewrite EE in C.
    pose proof (@roundPositive_lower q H) as L. fold e in L. fold f in L.
    specialize (L Hn).
    assert (M : mag (roundPositive q) = e) by (apply mag_unique; assumption).
    apply roundPositive_exact with (nearestEven (q / ulp q)); [exact R|].
    unfold ulp at 2. rewrite M. reflexivity.
  - assert (Eq : roundPositive q == pow2 E) by lra.
    assert (M : mag (roundPositive q) = (E + 1)%Z).
    { apply mag_unique; [exact R| |].
      - replace (E + 1 - 1)%Z with E by ring. exact C.
      - rewrite Eq. apply pow2_lt. lia. }
    apply roundPositive_exact with (2 ^ (E - fexp (E + 1)))%Z; [exact R|].
    unfold ulp. rewrite M, Eq at 1.
    rewrite <- pow2_quotient by (unfold fexp, prec, emin in *; lia).
    pose proof (pow2_pos (fexp (E + 1))) as P. revert P.
    generalize (pow2 (fexp (E + 1))) (pow2 E). intros u b P. field. lra.
Qed.

Lemma deqb_dneg x y : deqb (dneg x) (dneg y) = deqb x y.
Proof.
  destruct x as [|sx|sx|a], y as [|sy|sy|b]; cbn [deqb dneg];
    try reflexivity.
  - destruct sx, sy; reflexivity.
  - apply eq_true_iff_eq. rewrite !Qeq_bool_iff. split; intros E.
    + rewrite <- (Qopp_involutive a), E. apply Qopp_involutive.
    + rewrite E. reflexivity.
Qed.

Lemma dneg_involutive x : dneg (dneg x) = x.
Proof.
  destruct x as [|s|s|q]; cbn [dneg]; rewrite ?negb_involutive, ?Qopp_opp_eq;
    reflexivity.
Qed.

Lemma isDouble_dneg x : isDouble (dneg x) = isDouble x.
Proof.
  destruct x as [|s|s|q]; try reflexivity. cbn [dneg isDouble].
  change (Finite (- q)) with (dneg (Finite q)).
  destruct (Q_dec 0 q) as [[P|P]|P].
  - rewrite (@round_neg (- q)) by lra. rewrite Qopp_opp_eq.
    apply deqb_dneg.
  - rewrite (round_neg P).
    rewrite <- (deqb_dneg (dneg (round (- q))) (Finite q)).
    rewrite dneg_involutive. reflexivity.
  - rewrite (@round_zero q), (@round_zero (- q)); [reflexivity | | ]; lra.
Qed.

(** What rounding gives is a double: rounding it again changes nothing. *)
Lemma round_isDouble q : isDouble (round q) = true.
Proof.
  assert (Pos : forall x, 0 < x -> isDouble (round x) = true).
  { intros x P. rewrite (round_pos P).
    pose proof (roundPositive_nonneg (Qlt_le_weak _ _ P)) as N.
    destruct (Qeq_bool (roundPositive x) 0) eqn:Z; [reflexivity|].
    destruct (Qle_bool (pow2 emax) (roundPositive x)) eqn:O; [reflexivity|].
    bool_to_Q. assert (R : 0 < roundPositive x) by lra.
    cbn [isDouble].
    assert (R' : 0 < Qred (roundPositive x)) by (rewrite Qred_correct; exact R).
    rewrite (round_pos R').
    rewrite (roundPositive_comp R' (Qred_correct _)).
    pose proof (roundPositive_idempotent P R) as I.
    set (r := roundPositive x) in *.
    assert (Z' : Qeq_bool (roundPositive r) 0 = false).
    { apply not_true_is_false. intros T. bool_to_Q. lra. }
    assert (O' : Qle_bool (pow2 emax) (roundPositive r) = false).
    { apply not_true_is_false. intros T. bool_to_Q. lra. }
    rewrite Z', O'. cbn [deqb]. apply Qeq_bool_iff.
    rewrite !Qred_correct. exact I. }
  destruct (Q_dec 0 q) as [[P|P]|P].
  - apply Pos, P.
  - rewrite (round_neg P), isDouble_dneg. apply Pos. lra.
  - rewrite round_zero by lra. reflexivity.
Qed.

Lemma ofQ_isDouble q : isDouble (ofQ q) = true.
Proof.
  unfold ofQ. destruct (Qeq_bool q 0); [reflexivity|apply round_isDouble].
Qed.

Lemma ofQ_not_NaN q : ofQ q <> NaN.
Proof.
  unfold ofQ. destruct (Qeq_bool q 0); [discriminate|apply round_not_NaN].
Qed.

(** A difference of doubles is a double. *)
Lemma dsub_isDouble x y :
  isDouble x = true -> isDouble y = true -> isDouble (dsub x y) = true.
Proof.
  destruct x as [|sx|sx|a], y as [|sy|sy|b]; intros Hx Hy; cbn [dsub];
    try reflexivity; try exact Hx.
  - destruct (Bool.eqb sx sy); reflexivity.
  - change (Finite (- b)) with (dneg (Finite b)). rewrite isDouble_dneg.
    exact Hy.
  - apply ofQ_isDouble.
Qed.

Lemma dsub_not_NaN x y :
  isFinite x = true -> isFinite y = true -> dsub x y <> NaN.
Proof.
  destruct x as [|sx|sx|a], y as [|sy|sy|b]; cbn [isFinite dsub];
    intros Hx Hy; try discriminate. apply ofQ_not_NaN.
Qed.

(** A double that is its own rounding is not below the rounding of
    anything smaller. *)
Lemma round_below q a :
  isDouble (Finite a) = true -> q <= a -> dleb (round q) (Finite a) = true.
Proof.
  cbn [isDouble]. intros D L.
  pose proof (round_monotone L) as M.
  destruct (round a) as [|s|s|r]; cbn [deqb] in D; try discriminate.
  bool_to_Q.
  destruct (round q) as [|s|s|p]; cbn [dleb] in *; try exact M;
    bool_to_Q; lra.
Qed.

(** Subtracting a finite double that is not negative gives no more. *)
Lemma dsub_le a sb :
  isDouble a = true -> a <> NaN ->
  dleb (Zero false) sb = true -> dltb sb (Infinity false) = true ->
  dleb (dsub a sb) a = true.
Proof.
  destruct a as [|sa|sa|a], sb as [|sb|sb|b]; cbn [dsub dleb dltb];
    intros D N H0 H1; try discriminate; try congruence;
    try (destruct sa; reflexivity); try reflexivity.
  - destruct sb; discriminate.
  - bool_to_Q. lra.
  - bool_to_Q. lra.
  - bool_to_Q. unfold ofQ. destruct (Qeq_bool (a - b) 0) eqn:Z.
    + bool_to_Q. cbn [dleb]. bool_to_Q. lra.
    + apply round_below; [exact D | lra].
Qed.

(** Whole numbers below [2^53] are doubles. *)
Lemma roundPositive_Z q k :
  (0 < k < 2 ^ prec)%Z -> q == inject_Z k -> roundPositive q == q.
Proof.
  intros [K0 K1] E.
  assert (H : 0 < q).
  { rewrite E. change 0 with (inject_Z 0). rewrite <- Zlt_Qlt. exact K0. }
  destruct (mag_spec H) as [L U].
  assert (M1 : (mag q <= prec)%Z).
  { destruct (Z_le_gt_dec (mag q) prec) as [C|C]; [exact C|]. exfalso.
    assert (pow2 prec <= pow2 (mag q - 1)) by (apply pow2_le; lia).
    assert (q < pow2 prec).
    { rewrite E, pow2_Z by (unfold prec; lia). rewrite <- Zlt_Qlt. exact K1. }
    lra. }
  assert (F : (fexp (mag q) <= 0)%Z) by (unfold fexp, prec, emin in *; lia).
  apply roundPositive_exact with (k * 2 ^ (0 - fexp (mag q)))%Z; [exact H|].
  unfold ulp. rewrite inject_Z_mult, <- pow2_quotient by exact F.
  pose proof (pow2_pos (fexp (mag q))) as P. revert P.
  generalize (pow2 (fexp (mag q))). intros u P.
  rewrite E. change (pow2 0) with 1. field. lra.
Qed.

Lemma round_exact q :
  0 < q -> roundPositive q == q -> q < pow2 emax ->
  round q = Finite (Qred q).
Proof.
  intros H E O. rewrite (round_pos H).
  assert (Z' : Qeq_bool (roundPositive q) 0 = false).
  { apply not_true_is_false. intros T. bool_to_Q. lra. }
  assert (O' : Qle_bool (pow2 emax) (roundPositive q) = false).
  { apply not_true_is_false. intros T. bool_to_Q. lra. }
  rewrite Z', O'. f_equal. apply Qred_complete, E.
Qed.

Lemma round_Z q k :
  (0 < k < 2 ^ prec)%Z -> q == inject_Z k -> round q = Finite (inject_Z k).
Proof.
  intros K E.
  assert (H : 0 < q).
  { rewrite E. change 0 with (inject_Z 0). rewrite <- Zlt_Qlt. lia. }
  rewrite round_exact.
  - f_equal. rewrite (Qred_complete _ _ E). apply Qcanon.Qred_identity.
    cbn. apply Z.gcd_1_r.
  - exact H.
  - apply roundPositive_Z with k; assumption.
  - rewrite E. apply Qlt_trans with (pow2 prec).
    + rewrite pow2_Z by (unfold prec; lia). rewrite <- Zlt_Qlt. lia.
    + apply pow2_lt. unfold prec, emax. lia.
Qed.

(** ** The operations give doubles *)

Lemma roundPositive_pow2_prec q :
  q == inject_Z (2 ^ prec) -> roundPositive q == q.
Proof.
  intros E.
  assert (H : 0 < q) by (rewrite E; reflexivity).
  assert (M : mag q = (prec + 1)%Z).
  { apply mag_unique; [exact H| |].
    - rewrite E. apply Qle_bool_iff. vm_compute. reflexivity.
    - rewrite E. vm_compute. reflexivity. }
  apply roundPositive_exact with (2 ^ (prec - 1))%Z; [exact H|].
  unfold ulp. rewrite M, E. reflexivity.
Qed.

Lemma round_Z_le q k :
  (0 < k <= 2 ^ prec)%Z -> q == inject_Z k -> round q = Finite (inject_Z k).
Proof.
  intros [K0 K1] E.
  destruct (Z.eq_dec k (2 ^ prec)) as [C|C].
  - assert (H : 0 < q) by (rewrite E, C; reflexivity).
    rewrite round_exact.
    + f_equal. rewrite (Qred_complete _ _ E). apply Qcanon.Qred_identity.
      cbn. apply Z.gcd_1_r.
    + exact H.
    + apply roundPositive_pow2_prec. rewrite E, C. reflexivity.
    + rewrite E, C. reflexivity.
  - apply round_Z; [lia | exact E].
Qed.

(** A positive double of magnitude above [2^53] is a whole number. *)
Lemma large_double_integral p :
  0 < p -> roundPositive p == p -> (prec < mag p)%Z ->
  p == inject_Z (Qfloor p) /\ Qceiling p = Qfloor p.
Proof.
  intros H R M.
  set (f := fexp (mag p)). assert (F : (0 <= f)%Z).
  { unfold f, fexp, prec, emin in *. lia. }
  set (j := nearestEven (p / ulp p)).
  assert (E : p == inject_Z (j * 2 ^ f)).
  { assert (E : p == inject_Z j * pow2 f) by (symmetry; exact R).
    rewrite inject_Z_mult, <- (pow2_Z F). exact E. }
  assert (Fl : Qfloor p = (j * 2 ^ f)%Z).
  { rewrite (Qfloor_comp _ _ E). apply Qfloor_Z. }
  assert (Ce : Qceiling p = (j * 2 ^ f)%Z).
  { rewrite (Qceiling_comp _ _ E). apply Qceiling_Z. }
  rewrite Fl, Ce. split; [exact E | reflexivity].
Qed.

Lemma integral_double p k :
  0 < p -> roundPositive p == p -> p < pow2 emax -> (0 < k)%Z ->
  k = Qceiling p \/ k = Qfloor p ->
  round (inject_Z k) = Finite (inject_Z k).
Proof.
  intros H R O K C.
  destruct (Z_le_gt_dec (mag p) prec) as [M|M].
  - apply round_Z_le; [|reflexivity]. split; [exact K|].
    destruct (mag_spec H) as [_ U].
    assert (P : p <= inject_Z (2 ^ prec)).
    { rewrite <- pow2_Z by (unfold prec; lia).
      apply Qle_trans with (pow2 (mag p)); [lra | apply pow2_le; exact M]. }
    assert (Qceiling p <= 2 ^ prec)%Z.
    { apply Qceiling_resp_le in P. rewrite Qceiling_Z in P. exact P. }
    assert (Qfloor p <= Qceiling p)%Z.
    { pose proof (Qfloor_le p). pose proof (Qle_ceiling p).
      assert (L : inject_Z (Qfloor p) <= inject_Z (Qceiling p)) by lra.
      rewrite <- Zle_Qle in L. exact L. }
    destruct C; lia.
  - destruct (@large_double_integral p H R) as [E Ce]; [lia|].
    assert (Ek : inject_Z k == p).
    { destruct C as [C|C]; rewrite C, ?Ce; symmetry; exact E. }
    assert (Hk : 0 < inject_Z k) by (rewrite Ek; exact H).
    rewrite round_exact.
    + f_equal. apply Qcanon.Qred_identity. cbn. apply Z.gcd_1_r.
    + exact Hk.
    + rewrite (roundPositive_comp Hk Ek), R. symmetry. exact Ek.
    + rewrite Ek. exact O.
Qed.

(** What being a double says of a positive value. *)
Lemma isDouble_pos q :
  0 < q -> isDouble (Finite q) = true ->
  roundPositive q == q /\ q < pow2 emax.
Proof.
  intros H. cbn [isDouble]. rewrite (round_pos H).
  destruct (Qeq_bool (roundPositive q) 0); [discriminate|].
  destruct (Qle_bool (pow2 emax) (roundPositive q)) eqn:O; [discriminate|].
  cbn [deqb]. intros D. bool_to_Q. rewrite Qred_correct in D.
  split; [exact D | lra].
Qed.

Lemma isDouble_nonzero q : isDouble (Finite q) = true -> ~ q == 0.
Proof.
  cbn [isDouble]. intros D E. rewrite (round_zero E) in D. discriminate.
Qed.

Lemma Qceiling_opp q : Qceiling (- q) = (- Qfloor q)%Z.
Proof.
  unfold Qceiling. rewrite Qopp_opp_eq. reflexivity.
Qed.

(** [Math.ceil] of a double is a double. *)
Lemma dceil_isDouble x : isDouble x = true -> isDouble (dceil x) = true.
Proof.
  destruct x as [|s|s|q]; try reflexivity. intros D. cbn [dceil].
  destruct (Z.eqb_spec (Qceiling q) 0) as [Z|Z]; [reflexivity|].
  pose proof (isDouble_nonzero D) as N.
  destruct (Q_dec 0 q) as [[P|P]|P]; [| |exfalso; apply N; symmetry; exact P].
  - destruct (isDouble_pos P D) as [R O].
    cbn [isDouble]. rewrite (@integral_double q (Qceiling q) P R O).
    + cbn [deqb]. apply Qeq_bool_iff. reflexivity.
    + pose proof (Qle_ceiling q) as C.
      assert (L : 0 < inject_Z (Qceiling q)) by lra.
      change 0 with (inject_Z 0) in L. rewrite <- Zlt_Qlt in L. exact L.
    + left. reflexivity.
  - assert (P' : 0 < - q) by lra.
    assert (D' : isDouble (Finite (- q)) = true).
    { change (Finite (- q)) with (dneg (Finite q)). rewrite isDouble_dneg.
      exact D. }
    destruct (isDouble_pos P' D') as [R O].
    rewrite <- (Qopp_opp_eq q) in Z |- *. rewrite Qceiling_opp in Z |- *.
    set (k := Qfloor (- q)) in *.
    change (Finite (inject_Z (- k))) with (dneg (Finite (inject_Z k))).
    rewrite isDouble_dneg. cbn [isDouble].
    rewrite (@integral_double (- q) k P' R O).
    + cbn [deqb]. apply Qeq_bool_iff. reflexivity.
    + pose proof (Qfloor_le (- q)) as C. fold k in C.
      assert (0 <= k)%Z.
      { unfold k. rewrite <- (Qfloor_Z 0). apply Qfloor_resp_le.
        change (inject_Z 0) with 0. lra. }
      lia.
    + right. reflexivity.
Qed.

(** A quotient is a double. *)
Lemma ddiv_isDouble x y : isDouble (ddiv x y) = true.
Proof.
  destruct x, y; cbn [ddiv]; try reflexivity. apply round_isDouble.
Qed.

(** ** Against the Standard Library's specification *)

(** On each pair of the sample doubles, subtraction and division here give
    the double that [SFsub] and [SFdiv] give at precision 53 and maximal
    exponent 1024. *)
Example agrees_with_SpecFloat : agreesOn sampleDoubles = true.
Proof. vm_compute. reflexivity. Qed.

(** The figures 462, 8.4 and 50.4, written as [SpecFloat] computes them. *)
Example agrees_with_SpecFloat_rounded :
  ofSpecFloat
    (specDiv (specSub (specInteger 462)
                      (specDiv (specInteger 84) (specInteger 10)))
             (specDiv (specInteger 504) (specInteger 10)))
  = ddiv (dsub (ofZ 462) (ofQ (84 # 10))) (ofQ (504 # 10)).
Proof. vm_compute. reflexivity. Qed.

End Binary64Theory.

(* ================================================================== *)
(** * Properties of GridList *)
(* ================================================================== *)

Module GridListTheory.
Import Binary64 Binary64Theory GridList GridSamples.
Local Open Scope Q_scope.

Section AnyArithmetic.
Context {num : Type} `{Number num}.

Lemma recalculate_unmounted (props : GridListProps num) (sb : num)
    (size : GridListSize num) :
  recalculate props sb {| ref_current := None; gridSize := size |}
  = {| ref_current := None; gridSize := size |}.
Proof. reflexivity. Qed.

Lemma recalculate_width (props : GridListProps num) (sb : num)
    (el : HTMLDivElement num) (size : GridListSize num) :
  let w := effectiveWidth el (containerPadding props) sb in
  let c := ceil (div w (maxCellSize props)) in
  recalculate props sb {| ref_current := Some el; gridSize := size |}
  = {| ref_current := Some el;
       gridSize := {| columns := c; cellWidth := div w c |} |}.
Proof.
  unfold recalculate, effectiveWidth, overflows, setGridSize; cbn.
  destruct (ltb (offsetHeight el) (scrollHeight el)); reflexivity.
Qed.

(** C1.  Whatever the element's [offsetWidth], the container padding and
    the maximal cell size are, [recalculate] on a mounted grid sets
    [columns] to the ceiling of the effective width (the offset width less
    the padding, and less the scrollbar width when the content overflows)
    divided by the maximal cell size, and [cellWidth] to the effective width
    divided by that number of columns. *)
Theorem recalculate_sets_size (props : GridListProps num) (sb : num)
    (el : HTMLDivElement num) (size : GridListSize num) :
  let w := effectiveWidth el (containerPadding props) sb in
  let inst :=
    recalculate props sb {| ref_current := Some el; gridSize := size |} in
  columns (gridSize inst) = ceil (div w (maxCellSize props))
  /\ cellWidth (gridSize inst) = div w (columns (gridSize inst)).
Proof.
  cbv zeta. rewrite recalculate_width. cbn. split; reflexivity.
Qed.

Lemma refHandler_mounts (props : GridListProps num) (sb : num)
    (el : HTMLDivElement num) (inst : GridListState num) :
  refHandler props sb (Some el) inst
  = recalculate props sb {| ref_current := Some el;
                            gridSize := gridSize inst |}.
Proof. reflexivity. Qed.

End AnyArithmetic.

(** ** With doubles *)

Lemma Qdiv_antitone (w m1 m2 : Q) :
  0 < w -> 0 < m1 -> m1 <= m2 -> w / m2 <= w / m1.
Proof.
  intros Hw Hm1 Hle.
  assert (Hm2 : 0 < m2) by (eapply Qlt_le_trans; eassumption).
  apply Qle_shift_div_r; [assumption|].
  assert (Hq : 0 <= w / m1).
  { apply Qle_shift_div_l; [assumption|].
    rewrite Qmult_0_l. apply Qlt_le_weak. assumption. }
  setoid_replace w with (w / m1 * m1) at 1
    by (field; intro E; rewrite E in Hm1; discriminate).
  rewrite (Qmult_comm (w / m1) m1), (Qmult_comm (w / m1) m2).
  apply Qmult_le_compat_r; assumption.
Qed.

(** A positive finite double divided by a larger divisor gives no more:
    the exact quotient is no larger, and rounding keeps the order. *)
Lemma ddiv_antitone (w m1 m2 : double) :
  dltb (Zero false) w = true -> dltb w (Infinity false) = true ->
  dltb (Zero false) m1 = true -> dleb m1 m2 = true ->
  dleb (ddiv w m2) (ddiv w m1) = true.
Proof.
  destruct w as [|sw|sw|q]; cbn [dltb]; intros W0 W1; try discriminate.
  { destruct sw; discriminate. }
  destruct m1 as [|s1|s1|a], m2 as [|s2|s2|b];
    intros M0 M12; cbn [dltb dleb] in M0, M12; try discriminate;
    cbn [ddiv]; bool_to_Q.
  - reflexivity.
  - subst s1. discriminate.
  - subst s1. discriminate.
  - apply round_nonneg. apply Qle_shift_div_l; [exact M0|].
    rewrite Qmult_0_l. lra.
  - exfalso. lra.
  - apply round_monotone. apply Qdiv_antitone; assumption.
Qed.

(** The figures the repository's test expects: an element 1000 wide with
    the default padding 16 gives 7 columns for cells of at most 150 and 3
    for cells of at most 400.  The cells of the first are
    140.57142857142858 wide. *)
Example test_default_maxCellSize :
  gridSize (refHandler defaultProps (ofZ 0) (Some testElement)
                       (initialState defaultProps))
  = {| columns := ofZ 7;
       cellWidth := ofQ (14057142857142858 # 100000000000000) |}.
Proof. vm_compute. reflexivity. Qed.

Example test_custom_maxCellSize :
  gridSize (refHandler (withMaxCellSize (ofZ 400) defaultProps) (ofZ 0)
                       (Some testElement)
                       (initialState (withMaxCellSize (ofZ 400) defaultProps)))
  = {| columns := ofZ 3; cellWidth := ofZ 328 |}.
Proof. vm_compute. reflexivity. Qed.

Example test_first_render :
  gridSize (initialState defaultProps)
  = {| columns := ofZ (-1); cellWidth := ofZ 150 |}.
Proof. vm_compute. reflexivity. Qed.

(** Rounding shows: an element 462 wide with padding 8.4 and cells of at
    most 50.4 gets 9 columns, not the 10 of exact arithmetic (453.6 / 50.4
    rounds to 9), and its cells are 50.400000000000006 wide, wider than the
    maximal cell size. *)
Example rounded_grid :
  let grid := gridSize (recalculate roundedProps (ofZ 0)
                          {| ref_current := Some roundedElement;
                             gridSize := initialGridSize roundedProps |}) in
  columns grid = ofZ 9
  /\ cellWidth grid = ofQ (50400000000000006 # 1000000000000000)
  /\ dltb (maxCellSize roundedProps) (cellWidth grid) = true.
Proof. vm_compute. repeat split; reflexivity. Qed.

(** An infinite width has no number of columns for an infinite maximal
    cell size. *)
Example infinite_width :
  dceil (ddiv (Infinity false) (Infinity false)) = NaN.
Proof. reflexivity. Qed.

(** Whatever the element and the props are, the grid size is made of
    doubles. *)
Lemma grid_of_doubles (props : GridListProps double)
    (el : HTMLDivElement double) (sb : double) (size : GridListSize double) :
  let grid := gridSize (recalculate props sb
                          {| ref_current := Some el; gridSize := size |}) in
  isDouble (columns grid) = true /\ isDouble (cellWidth grid) = true.
Proof.
  cbv zeta. rewrite recalculate_width. cbn [gridSize columns cellWidth].
  cbn [ceil div DoubleNumber]. split.
  - apply dceil_isDouble, ddiv_isDouble.
  - apply ddiv_isDouble.
Qed.

(** C3.  For a positive finite effective width [w] the number of columns
    does not increase when the maximal cell size grows: for [0 < m1 <= m2]
    the columns computed with [m2] are at most those computed with [m1],
    in the arithmetic of doubles, rounding, overflow and underflow
    included. *)
Theorem columns_antitone_in_maxCellSize (props : GridListProps double)
    (el : HTMLDivElement double) (sb : double) (size : GridListSize double)
    (m1 m2 : double) :
  dltb (Zero false) (effectiveWidth el (containerPadding props) sb) = true ->
  dltb (effectiveWidth el (containerPadding props) sb) (Infinity false)
    = true ->
  dltb (Zero false) m1 = true ->
  dleb m1 m2 = true ->
  dleb
    (columns (gridSize (recalculate (withMaxCellSize m2 props) sb
                          {| ref_current := Some el; gridSize := size |})))
    (columns (gridSize (recalculate (withMaxCellSize m1 props) sb
                          {| ref_current := Some el; gridSize := size |})))
  = true.
Proof.
  intros W0 W1 M0 M12.
  rewrite !recalculate_width.
  cbn [gridSize columns maxCellSize containerPadding withMaxCellSize].
  cbn [ceil div DoubleNumber].
  apply dceil_monotone, ddiv_antitone; assumption.
Qed.

Lemma columns_antitone_in_maxCellSize_witness :
  dltb (Zero false)
       (effectiveWidth testElement (containerPadding defaultProps) (ofZ 0))
  = true
  /\ dltb (effectiveWidth testElement (containerPadding defaultProps) (ofZ 0))
          (Infinity false) = true
  /\ dltb (Zero false) (ofZ 150) = true
  /\ dleb (ofZ 150) (ofZ 400) = true
  /\ dleb
       (columns (gridSize
          (recalculate (withMaxCellSize (ofZ 400) defaultProps) (ofZ 0)
             {| ref_current := Some testElement;
                gridSize := initialGridSize defaultProps |})))
       (columns (gridSize
          (recalculate (withMaxCellSize (ofZ 150) defaultProps) (ofZ 0)
             {| ref_current := Some testElement;
                gridSize := initialGridSize defaultProps |})))
     = true.
Proof.
  split; [vm_compute; reflexivity|]. split; [vm_compute; reflexivity|].
  split; [vm_compute; reflexivity|]. split; [vm_compute; reflexivity|].
  apply (@columns_antitone_in_maxCellSize defaultProps testElement (ofZ 0)
           (initialGridSize defaultProps) (ofZ 150) (ofZ 400));
    vm_compute; reflexivity.
Defined.

End GridListTheory.

(* ================================================================== *)
(** * Properties of handler bodies *)
(* ================================================================== *)

Module ReactTheory.
Import React.

Section Sequencing.
Context {S I : Type}.

Lemma bind_stateOf (m : M S I unit) (k : unit -> M S I unit) (s : S) :
  stateOf (bind m k s) = stateOf (k tt (stateOf (m s))).
Proof.
  unfold bind, stateOf. destruct (m s) as [[[] s1] l1]. cbn.
  destruct (k tt s1) as [[b s2] l2]. reflexivity.
Qed.

Lemma bind_traceOf (m : M S I unit) (k : unit -> M S I unit) (s : S) :
  traceOf (bind m k s) = traceOf (m s) ++ traceOf (k tt (stateOf (m s))).
Proof.
  unfold bind, stateOf, traceOf. destruct (m s) as [[[] s1] l1]. cbn.
  destruct (k tt s1) as [[b s2] l2]. reflexivity.
Qed.

Lemma callIfPresent_run (cb : option callback) (ev : Event) (s : S) :
  callIfPresent (I := I) cb ev s = (tt, s, userCall cb ev).
Proof. destruct cb; reflexivity. Qed.

End Sequencing.

(** Case analysis on the conditions a handler body branches on, innermost
    first. *)
Ltac simple_scrutinee b :=
  lazymatch b with
  | context [if _ then _ else _] => fail
  | context [match _ with Some _ => _ | None => _ end] => fail
  | _ => idtac
  end.

Ltac split_ifs :=
  repeat (cbn;
          match goal with
          | |- context [if ?b then _ else _] =>
              simple_scrutinee b; destruct b eqn:?
          | |- context [match ?x with Some _ => _ | None => _ end] =>
              simple_scrutinee x; destruct x eqn:?
          end);
  cbn; try discriminate.

(** Bring the recorded outcomes of conditions into a usable form, and close
    the cases in which two of them contradict each other. *)
Ltac tidy :=
  repeat match goal with
  | H : _ && _ = true |- _ => apply andb_prop in H; destruct H
  | H : negb _ = true |- _ => apply negb_true_iff in H
  | H : negb _ = false |- _ => apply negb_false_iff in H
  end;
  try match goal with
  | H : ?a && ?b = false, Ha : ?a = true, Hb : ?b = true |- _ =>
      rewrite Ha, Hb in H; discriminate H
  end.

End ReactTheory.

(* ================================================================== *)
(** * Properties of the tooltip hooks *)
(* ================================================================== *)

Module TooltipTheory.
Import React Tooltip ReactTheory.
Local Open Scope string_scope.
Local Open Scope list_scope.
Local Open Scope nat_scope.

Ltac hook_unfold :=
  cbv [step react fire timeoutCallback dispatch provided option_map
       mouseHandlers keyboardHandlers touchHandlers
       handleMouseEnter handleMouseLeave handleFocus handleBlur handleKeyDown
       handleTouchStart handleTouchMove handleContextMenu handleWindowBlur
       mouseTimeout keyboardTimeout touchTimeout touchEndCallback touchEffect
       setInitiated showTooltip hideTooltip setEstimatedPosition start stop
       writeTouched writeWindowBlurred body
       isHoverModeable mouseDelay withCallbacks withoutCallbacks
       due timerOf set_timer delayOf
       bind ret get modify perform callIfPresent when stateOf traceOf].

(** ** The merged handlers call the caller's handler first *)

Lemma tooltip_callbackFirst (h : mergedHandler) (o : TooltipOptions) :
  callbackFirst (supplied h o) (body h o).
Proof.
  intros ev st. destruct h; cbn [supplied]; hook_unfold.
  all: split_ifs; cbn; eexists; (split; [reflexivity|reflexivity]).
Qed.

Lemma tooltip_sameTransition (h : mergedHandler) (o : TooltipOptions)
    (m : MergableMouseHandlers callback)
    (k : MergableKeyboardHandlers callback)
    (t : MergableTouchHandlers callback) :
  sameTransition (body h (withCallbacks m k t o)) (body h o).
Proof.
  intros ev st. destruct h; hook_unfold; cbn.
  all: split_ifs; cbn; split; reflexivity.
Qed.

Lemma tooltip_callsNothing (h : mergedHandler) (o : TooltipOptions) :
  callsNothing (body h (withoutCallbacks o)).
Proof.
  intros ev st. destruct h; hook_unfold; cbn.
  all: split_ifs; reflexivity.
Qed.

(** ** Runs *)

Lemma run_cons_state (o : TooltipOptions) (l : label)
    (ls : list (TooltipOptions * label)) (st : State) :
  stateOf (run ((o, l) :: ls) st) = stateOf (run ls (stateOf (step o l st))).
Proof. exact (bind_stateOf (step o l) (fun _ => run ls) st). Qed.

Lemma run_cons_trace (o : TooltipOptions) (l : label)
    (ls : list (TooltipOptions * label)) (st : State) :
  traceOf (run ((o, l) :: ls) st)
  = traceOf (step o l st) ++ traceOf (run ls (stateOf (step o l st))).
Proof. exact (bind_traceOf (step o l) (fun _ => run ls) st). Qed.

Lemma run_app_state (ls1 ls2 : list (TooltipOptions * label)) (st : State) :
  stateOf (run (ls1 ++ ls2) st) = stateOf (run ls2 (stateOf (run ls1 st))).
Proof.
  revert st. induction ls1 as [|[o l] ls1 IH]; intros st; [reflexivity|].
  cbn [app]. rewrite !run_cons_state. apply IH.
Qed.

(** ** The interaction mode *)

Lemma valid_written (m : UserInteractionMode) :
  In m ["mouse"; "keyboard"; "touch"] -> validInitiated (Some m).
Proof.
  unfold validInitiated, interactionModes. cbn.
  intros [<-|[<-|[<-|[]]]]; auto 6.
Qed.

Lemma valid_null : validInitiated None.
Proof. unfold validInitiated, interactionModes. cbn. auto 6. Qed.

Ltac solve_valid :=
  first [ assumption | apply valid_null | apply valid_written; cbn; tauto ].

Lemma step_keeps_valid (o : TooltipOptions) (l : label) (st : State) :
  validInitiated (initiated st) ->
  validInitiated (initiated (stateOf (step o l st)))
  /\ Forall validInitiated (initiatedWrites (traceOf (step o l st))).
Proof.
  intros Hv. destruct l as [ | | | | | | | | | | | |f]; try destruct f;
    hook_unfold; cbn.
  all: split_ifs; cbn.
  all: split;
    [ solve_valid
    | repeat (first [apply Forall_nil | apply Forall_cons; [solve_valid|]]) ].
Qed.

Lemma initiatedWrites_app (tr1 tr2 : list (effect TooltipAction)) :
  initiatedWrites (tr1 ++ tr2) = initiatedWrites tr1 ++ initiatedWrites tr2.
Proof.
  induction tr1 as [|e tr1 IH]; [reflexivity|].
  destruct e as [cb ev|a]; [|destruct a]; cbn; rewrite ?IH; reflexivity.
Qed.

(** The handlers write the mode of their own flow and nothing else; in
    particular none of them writes ["window"]. *)
Lemma handlers_write_own_mode (h : mergedHandler) (o : TooltipOptions)
    (ev : Event) (st : State) :
  Forall (fun v => In v [Some "mouse"; Some "keyboard"; Some "touch"])
         (initiatedWrites (traceOf (body h o ev st))).
Proof.
  destruct h; hook_unfold; cbn.
  all: split_ifs; repeat constructor; cbn; tauto.
Qed.

(** C8.  The interaction mode of a widget is always one of mouse, keyboard,
    touch, window and none ([null]): from a state in which it is, every run
    of events ends in a state in which it is, and every value written
    through [setInitiated] on the way is one of them. *)
Theorem initiated_always_valid (ls : list (TooltipOptions * label))
    (st : State) :
  validInitiated (initiated st) ->
  validInitiated (initiated (stateOf (run ls st)))
  /\ Forall validInitiated (initiatedWrites (traceOf (run ls st))).
Proof.
  revert st. induction ls as [|[o l] ls IH]; intros st Hv.
  - cbn. split; [assumption | constructor].
  - destruct (step_keeps_valid o l st Hv) as [Hv1 Hw1].
    destruct (IH _ Hv1) as [Hv2 Hw2].
    rewrite run_cons_state, run_cons_trace, initiatedWrites_app.
    split; [assumption | apply Forall_app; split; assumption].
Qed.

Lemma initiated_always_valid_witness :
  validInitiated (initiated (mount (exampleOptions "mouse")))
  /\ validInitiated
       (initiated (stateOf (run hoverRun (mount (exampleOptions "mouse")))))
  /\ Forall validInitiated
       (initiatedWrites
          (traceOf (run hoverRun (mount (exampleOptions "mouse"))))).
Proof.
  split.
  - apply valid_null.
  - apply (initiated_always_valid hoverRun (mount (exampleOptions "mouse"))).
    apply valid_null.
Defined.

(** ** Showing *)

Lemma initiatedIs_true (v : TooltipInitiated) (m : UserInteractionMode) :
  initiatedIs v m = true -> v = Some m.
Proof.
  destruct v as [s|]; cbn; [|discriminate].
  intros E. apply String.eqb_eq in E. now subst.
Qed.

(** A step calls [showTooltip] only as the timer of the mouse or keyboard
    flow running its callback when due, with [initiated.current] the mode
    of that flow, or as a context menu on a touched element. *)
Lemma show_causes (o : TooltipOptions) (l : label) (st : State) :
  In (Did ShowTooltip) (traceOf (step o l st)) ->
  (exists f t,
      (f = MouseFlow \/ f = KeyboardFlow)
      /\ l = TimerFires f
      /\ timerOf f st = Some t
      /\ armedAt t + wait t <= now st
      /\ initiated st = Some (modeOf f))
  \/ (exists event,
         l = ContextMenu event /\ mode o = "touch" /\ touched st = true).
Proof.
  destruct l as [ | | | | | | | | | | | |f]; try destruct f;
    hook_unfold; cbn.
  all: split_ifs; intros Hin; cbn in Hin.
  all: repeat (destruct Hin as [Hin|Hin]; try discriminate); try contradiction.
  all: first
    [ right; eexists; split; [reflexivity|]; split;
      [ now apply String.eqb_eq | now apply negb_false_iff ]
    | left; exists MouseFlow; eexists; split; [now left|]; split;
      [reflexivity|]; split; [reflexivity|]; split;
      [ now apply Nat.leb_le | now apply initiatedIs_true ]
    | left; exists KeyboardFlow; eexists; split; [now right|]; split;
      [reflexivity|]; split; [reflexivity|]; split;
      [ now apply Nat.leb_le | now apply initiatedIs_true ] ].
Qed.

(** A pending timer was pending before the step, or the step started it:
    at the current time, with the delay of the flow. *)
Lemma timer_set_by_start (o : TooltipOptions) (l : label) (st : State)
    (f : flow) (t : Timeout) :
  timerOf f (stateOf (step o l st)) = Some t ->
  timerOf f st = Some t
  \/ (t = {| armedAt := now st; wait := delayOf o f |}
      /\ In (Did (TimerStart f)) (traceOf (step o l st))).
Proof.
  destruct l as [ | | | | | | | | | | | |g]; try destruct g; destruct f;
    hook_unfold; cbn.
  all: split_ifs; intros Ht; cbn in Ht; try discriminate.
  all: first [ left; congruence
             | right; injection Ht as <-; split; [reflexivity|];
               cbn; tauto ].
Qed.

Lemma pending_was_armed (o0 : TooltipOptions)
    (ls : list (TooltipOptions * label)) (f : flow) (t : Timeout) :
  timerOf f (stateOf (run ls (mount o0))) = Some t ->
  armedDuring ls (mount o0) f t.
Proof.
  revert t. induction ls as [|[o l] ls IH] using rev_ind; intros t Ht.
  - destruct f; discriminate.
  - rewrite run_app_state, run_cons_state in Ht.
    cbn [run stateOf ret snd fst] in Ht.
    apply timer_set_by_start in Ht. destruct Ht as [Ht|[-> Hin]].
    + destruct (IH _ Ht) as (ls1 & o1 & l1 & ls2 & -> & Hin & ->).
      exists ls1, o1, l1, (ls2 ++ [(o, l)]). rewrite <- app_assoc. cbn.
      repeat split; assumption.
    + exists ls, o, l, []. repeat split; assumption.
Qed.

(** C2, as amended.  After any run of a mounted widget, a step calls
    [showTooltip] only in one of two ways: the timer of a flow runs its
    callback, the timer being pending since a [start] of the run, its delay
    elapsed, and [initiated.current] still the mode of that flow; or, in
    the touch flow, the context menu handler shows the tooltip at once on a
    touched element, with no delay. *)
Theorem show_after_delay_or_on_touch (o0 : TooltipOptions)
    (ls : list (TooltipOptions * label)) (o : TooltipOptions) (l : label) :
  In (Did ShowTooltip) (traceOf (step o l (stateOf (run ls (mount o0))))) ->
  shownByTimer (mount o0) ls l \/ shownByContextMenu (mount o0) ls o l.
Proof.
  intros Hin. apply show_causes in Hin.
  destruct Hin as [(f & t & _ & Hl & Ht & Hdue & Hi)|Hmenu].
  - left. exists f, t. repeat split; try assumption.
    apply pending_was_armed. assumption.
  - right. exact Hmenu.
Qed.

Lemma show_after_delay_or_on_touch_witness :
  In (Did ShowTooltip)
     (traceOf (step (exampleOptions "mouse") (TimerFires MouseFlow)
                    (stateOf (run hoverRun (mount (exampleOptions "mouse"))))))
  /\ (shownByTimer (mount (exampleOptions "mouse")) hoverRun
                   (TimerFires MouseFlow)
      \/ shownByContextMenu (mount (exampleOptions "mouse")) hoverRun
                            (exampleOptions "mouse") (TimerFires MouseFlow)).
Proof.
  assert (Hin : In (Did ShowTooltip)
     (traceOf (step (exampleOptions "mouse") (TimerFires MouseFlow)
                (stateOf (run hoverRun (mount (exampleOptions "mouse")))))))
    by (vm_compute; left; reflexivity).
  split; [exact Hin|].
  apply (show_after_delay_or_on_touch (exampleOptions "mouse") hoverRun
           (exampleOptions "mouse") (TimerFires MouseFlow)).
  exact Hin.
Defined.

(** C2 as stated fails.  In the touch flow the tooltip is shown without any
    delay: a finger is
    put on the element and the context menu event follows at once; the
    handler calls [showTooltip] at time 0 although the configured delay is
    1000 and no timer has run. *)
Lemma touch_shows_without_delay :
  In (Did ShowTooltip)
     (traceOf (step (exampleOptions "touch") (ContextMenu exampleEvent)
                    (stateOf (run touchRun (mount (exampleOptions "touch"))))))
  /\ now (stateOf (run touchRun (mount (exampleOptions "touch")))) = 0
  /\ delay (exampleOptions "touch") = 1000
  /\ ~ shownOnlyAfterDelay (exampleOptions "touch") touchRun
         (exampleOptions "touch") (ContextMenu exampleEvent).
Proof.
  assert (Hin : In (Did ShowTooltip)
     (traceOf (step (exampleOptions "touch") (ContextMenu exampleEvent)
                (stateOf (run touchRun (mount (exampleOptions "touch")))))))
    by (vm_compute; right; right; left; reflexivity).
  repeat split; try assumption; try reflexivity.
  intros Hclaim. destruct (Hclaim Hin) as (f & t & Hl & _). discriminate Hl.
Qed.

(** ** Cancelling *)

Lemma cancel_stops (o : TooltipOptions) (l : label) (st : State) (f : flow) :
  cancelling o l st = Some f ->
  In (Did (TimerStop f)) (traceOf (step o l st))
  /\ ~ In (Did ShowTooltip) (traceOf (step o l st))
  /\ timerOf f (stateOf (step o l st)) = None
  /\ visible (stateOf (step o l st)) = false.
Proof.
  destruct l; cbn [cancelling]; try discriminate.
  all: hook_unfold; cbn.
  all: split_ifs; intros Hc; try discriminate; injection Hc as <-; cbn.
  all: tidy; try congruence.
  all: (split; [tauto|]); (split; [intuition discriminate|]);
    split; reflexivity.
Qed.

(** The cancelling events are the only ones that stop the timer of the
    mouse or the keyboard flow. *)
Lemma stop_is_cancelling (o : TooltipOptions) (l : label) (st : State)
    (f : flow) :
  In (Did (TimerStop f)) (traceOf (step o l st)) ->
  f = TouchFlow \/ cancelling o l st = Some f.
Proof.
  intros H.
  destruct f; [right | right | left; reflexivity].
  all: revert H.
  all: destruct l as [ | | | | | | | | | | | |g]; try destruct g;
    hook_unfold; cbn.
  all: split_ifs; intros Hin; cbn in Hin; try reflexivity.
  all: tidy; try congruence.
  all: exfalso;
    repeat (destruct Hin as [Hin|Hin]; try discriminate); try assumption.
Qed.

(** Only the first event of a gesture starts a timer. *)
Lemma start_begins_gesture (o : TooltipOptions) (l : label) (st : State)
    (f : flow) :
  In (Did (TimerStart f)) (traceOf (step o l st)) -> restarts f l = true.
Proof.
  destruct l as [ | | | | | | | | | | | |g]; try destruct g; destruct f;
    hook_unfold; cbn.
  all: split_ifs; intros Hin; cbn in Hin; try reflexivity.
  all: exfalso;
    repeat (destruct Hin as [Hin|Hin]; try discriminate); assumption.
Qed.

Lemma timer_stays_clear (o : TooltipOptions) (l : label) (st : State)
    (f : flow) :
  timerOf f st = None -> restarts f l = false ->
  timerOf f (stateOf (step o l st)) = None.
Proof.
  intros Hnone Hl.
  destruct (timerOf f (stateOf (step o l st))) as [t|] eqn:Ht; [|reflexivity].
  apply timer_set_by_start in Ht. destruct Ht as [Ht|[_ Hin]].
  - congruence.
  - apply start_begins_gesture in Hin. congruence.
Qed.

(** A cleared timer runs nothing. *)
Lemma fire_cleared (o : TooltipOptions) (f : flow) (st : State) :
  timerOf f st = None -> fire o f st = (tt, st, []).
Proof. intros Hnone. unfold fire, bind, get. rewrite Hnone. reflexivity. Qed.

Lemma idle_step (o : TooltipOptions) (l : label) (st : State) (f : flow) :
  timerOf f st = None -> visible st = false -> idle f l = true ->
  timerOf f (stateOf (step o l st)) = None
  /\ visible (stateOf (step o l st)) = false
  /\ ~ In (Did ShowTooltip) (traceOf (step o l st)).
Proof.
  intros Hnone Hvis Hidle.
  destruct l as [ | | | | | | | | | | |ms|g]; try discriminate.
  - unfold step, react, touchEffect. hook_unfold. cbn. rewrite Hvis.
    destruct f; cbn in *; split_ifs; auto.
  - assert (g = f) as -> by (destruct f, g; cbn in Hidle; congruence).
    unfold step, react. rewrite bind_stateOf, bind_traceOf.
    rewrite (fire_cleared o f st Hnone). cbn [stateOf traceOf fst snd app].
    unfold touchEffect. hook_unfold. cbn. rewrite Hvis.
    split_ifs; auto.
Qed.

Lemma cleared_until_restart (f : flow) (ls : list (TooltipOptions * label))
    (st : State) :
  timerOf f st = None ->
  forallb (fun ol => negb (restarts f (snd ol))) ls = true ->
  timerOf f (stateOf (run ls st)) = None.
Proof.
  revert st. induction ls as [|[o l] ls IH]; intros st Hnone Hls.
  - exact Hnone.
  - cbn in Hls. apply andb_prop in Hls. destruct Hls as [Hl Hls].
    apply negb_true_iff in Hl.
    rewrite run_cons_state. apply IH; [|assumption].
    apply timer_stays_clear; assumption.
Qed.

Lemma hidden_while_idle (f : flow) (ls : list (TooltipOptions * label))
    (st : State) :
  timerOf f st = None -> visible st = false ->
  forallb (fun ol => idle f (snd ol)) ls = true ->
  ~ In (Did ShowTooltip) (traceOf (run ls st))
  /\ visible (stateOf (run ls st)) = false.
Proof.
  revert st. induction ls as [|[o l] ls IH]; intros st Hnone Hvis Hls.
  - split; [intros [] | exact Hvis].
  - cbn in Hls. apply andb_prop in Hls. destruct Hls as [Hl Hls].
    destruct (idle_step o l st f Hnone Hvis Hl) as (Hn1 & Hv1 & Hs1).
    destruct (IH _ Hn1 Hv1 Hls) as [Hs2 Hv2].
    rewrite run_cons_state, run_cons_trace. split; [|assumption].
    intros Hin. apply in_app_or in Hin. tauto.
Qed.

(** C7.  An event that cancels a pending show (mouseleave while
    mouse-initiated, blur, Escape while keyboard-initiated) stops the timer
    of its flow and shows nothing; from then on the timer stays cleared
    until a new gesture starts it, a cleared timer never runs the deferred
    callback, and with no further input the tooltip does not become
    visible. *)
Theorem cancel_clears_pending_show (o : TooltipOptions) (l : label)
    (st : State) (f : flow) :
  cancelling o l st = Some f ->
  In (Did (TimerStop f)) (traceOf (step o l st))
  /\ ~ In (Did ShowTooltip) (traceOf (step o l st))
  /\ showCancelled f (stateOf (step o l st)).
Proof.
  intros Hc.
  destruct (cancel_stops o l st Hc) as (Hstop & Hshow & Hnone & Hvis).
  split; [assumption|]. split; [assumption|].
  split.
  - intros ls Hls.
    pose proof (cleared_until_restart f ls _ Hnone Hls) as Hclear.
    split; [assumption|].
    intros o'. apply fire_cleared. assumption.
  - intros ls Hls. apply hidden_while_idle with (f := f); assumption.
Qed.

Lemma cancel_clears_pending_show_witness :
  cancelling (exampleOptions "mouse") (MouseLeave exampleEvent)
    (stateOf (run hoverRun (mount (exampleOptions "mouse"))))
  = Some MouseFlow
  /\ (In (Did (TimerStop MouseFlow))
         (traceOf (step (exampleOptions "mouse") (MouseLeave exampleEvent)
                     (stateOf (run hoverRun
                                   (mount (exampleOptions "mouse"))))))
      /\ ~ In (Did ShowTooltip)
             (traceOf (step (exampleOptions "mouse") (MouseLeave exampleEvent)
                         (stateOf (run hoverRun
                                       (mount (exampleOptions "mouse"))))))
      /\ showCancelled MouseFlow
           (stateOf (step (exampleOptions "mouse") (MouseLeave exampleEvent)
                       (stateOf (run hoverRun
                                     (mount (exampleOptions "mouse"))))))).
Proof.
  split.
  - reflexivity.
  - apply (@cancel_clears_pending_show (exampleOptions "mouse")
             (MouseLeave exampleEvent)
             (stateOf (run hoverRun (mount (exampleOptions "mouse"))))
             MouseFlow).
    reflexivity.
Defined.

(** The pointer leaves before the second is over: the timer is stopped, and
    when the second is over nothing is shown. *)
Example leave_before_delay :
  actionsOf (traceOf (run [(exampleOptions "mouse", MouseEnter exampleEvent);
                           (exampleOptions "mouse", Elapse 999);
                           (exampleOptions "mouse", MouseLeave exampleEvent);
                           (exampleOptions "mouse", Elapse 1);
                           (exampleOptions "mouse", TimerFires MouseFlow)]
                          (mount (exampleOptions "mouse"))))
  = [SetInitiated (Some "mouse");
     SetEstimatedPosition (currentTarget exampleEvent);
     TimerStart MouseFlow; TimerStop MouseFlow; HideTooltip].
Proof. reflexivity. Qed.

Example stay_for_delay :
  actionsOf (traceOf (run (hoverRun
                           ++ [(exampleOptions "mouse", TimerFires MouseFlow)])
                          (mount (exampleOptions "mouse"))))
  = [SetInitiated (Some "mouse");
     SetEstimatedPosition (currentTarget exampleEvent);
     TimerStart MouseFlow; ShowTooltip; WriteTouched false].
Proof. reflexivity. Qed.

End TooltipTheory.

(* ================================================================== *)
(** * Properties of useRippleHandlers *)
(* ================================================================== *)

Module RippleTheory.
Import React Ripple ReactTheory.
Local Open Scope list_scope.

Ltac ripple_unfold :=
  cbv [handle merged handlerFor useRippleHandlers dispatch provided option_map
       onKeyDown onKeyUp onMouseDown onMouseUp onMouseLeave
       onTouchStart onTouchMove onTouchEnd onClick
       callCreate callRelease callCancel withHandlers rippleDisabledFor
       bind ret get modify perform callIfPresent when stateOf traceOf].

Section AnyRippleState.
Variable R : Type.

Lemma ripple_callbackFirst (o : Options R) (ty : eventType) :
  callbackFirst (handlerFor ty (handlers o)) (merged o ty).
Proof.
  intros ev r. destruct ty; cbn [handlerFor]; ripple_unfold.
  all: split_ifs; eexists; split; reflexivity.
Qed.

Lemma ripple_sameTransition (o : Options R) (hs : Handlers.t callback)
    (ty : eventType) :
  sameTransition (merged (withHandlers hs o) ty) (merged o ty).
Proof.
  intros ev r. destruct ty; ripple_unfold; cbn.
  all: split_ifs; split; reflexivity.
Qed.

Lemma ripple_callsNothing (o : Options R) (ty : eventType) :
  callsNothing (merged (withHandlers (Handlers.none callback) o) ty).
Proof.
  intros ev r. destruct ty; ripple_unfold; cbn.
  all: split_ifs; reflexivity.
Qed.

(** When the ripple effect is enabled, every returned handler is the
    closure of the hook. *)
Lemma enabled_returns_merged (o : Options R) (ty : eventType) :
  rippleDisabledFor o ty = false ->
  handlerFor ty (useRippleHandlers o) = Some (Merged (merged o ty)).
Proof.
  unfold rippleDisabledFor.
  destruct ty, (disabled o) eqn:Hd, (disableRipple o) eqn:Hr,
    (disableProgrammaticRipple o) eqn:Hp; cbn; try discriminate.
  all: intros _; rewrite Hd, Hr; cbn; rewrite ?Hp; reflexivity.
Qed.

Lemma disabled_run (o : Options R) (ty : eventType) :
  rippleDisabledFor o ty = true ->
  handlerFor ty (useRippleHandlers o) = provided (handlerFor ty (handlers o))
  /\ forall (ev : Event) (r : R),
       handle o ty ev r = (tt, r, userCall (handlerFor ty (handlers o)) ev).
Proof.
  unfold rippleDisabledFor, handle.
  destruct ty, (disabled o) eqn:Hd, (disableRipple o) eqn:Hr,
    (disableProgrammaticRipple o) eqn:Hp; cbn; try discriminate.
  all: intros _; rewrite Hd, Hr; cbn; rewrite ?Hp; cbn.
  all: split; [reflexivity|]; intros ev r.
  all: match goal with
       | |- context [provided ?h] => destruct h; reflexivity
       end.
Qed.

(** C9.  When the ripple effect is disabled ([disabled] or [disableRipple],
    and for clicks also [disableProgrammaticRipple]) the hook returns the
    caller's own handler for the event type, so that an event only calls
    that handler, if there is one: no ripple is created, released or
    cancelled and the ripple state stays as it is. *)
Theorem disabled_returns_supplied_handlers (o : Options R) (ty : eventType) :
  rippleDisabledFor o ty = true ->
  handlerFor ty (useRippleHandlers o) = provided (handlerFor ty (handlers o))
  /\ forall (ev : Event) (r : R),
       stateOf (handle o ty ev r) = r
       /\ traceOf (handle o ty ev r)
          = userCall (handlerFor ty (handlers o)) ev
       /\ forallb isCall (traceOf (handle o ty ev r)) = true.
Proof.
  intros Hdis. destruct (disabled_run o ty Hdis) as [Hret Hrun].
  split; [exact Hret|]. intros ev r. rewrite Hrun.
  repeat split. cbn. destruct (handlerFor ty (handlers o)); reflexivity.
Qed.

(** If creating and releasing are idempotent, so is handling a down or an
    up event, as far as the ripple state goes. *)
Lemma retrigger_same_state (o : Options R)
    (create_idem : forall e r, create o e (create o e r) = create o e r)
    (release_idem : forall e r, release o e (release o e r) = release o e r)
    (ty : eventType) (ev : Event) (r : R) :
  isDown ty || isUp ty = true ->
  stateOf (handle o ty ev (stateOf (handle o ty ev r)))
  = stateOf (handle o ty ev r).
Proof.
  intros Hty.
  destruct (rippleDisabledFor o ty) eqn:Hdis.
  - destruct (disabled_run o ty Hdis) as [_ Hrun].
    rewrite !Hrun. reflexivity.
  - unfold handle. rewrite (enabled_returns_merged o ty Hdis).
    cbn [dispatch].
    destruct ty; try discriminate Hty; ripple_unfold.
    all: split_ifs; auto.
Qed.

End AnyRippleState.

Lemma createRipple_idempotent (e : Event) (r : RippleState) :
  createRipple e (createRipple e r) = createRipple e r.
Proof. destruct r; reflexivity. Qed.

Lemma releaseRipple_idempotent (e : Event) (r : RippleState) :
  releaseRipple e (releaseRipple e r) = releaseRipple e r.
Proof. destruct r; reflexivity. Qed.

(** C6.  Creating and releasing are idempotent within a gesture: handling
    the same down event, or the same up event, twice through the handlers
    the hook returns leaves the ripple state as handling it once does. *)
Theorem ripple_retrigger_idempotent (hs : Handlers.t callback)
    (disabled disableRipple disableProgrammaticRipple : bool)
    (ty : eventType) (ev : Event) (r : RippleState) :
  isDown ty || isUp ty = true ->
  stateOf (handle (rippleOptions hs disabled disableRipple
                                 disableProgrammaticRipple) ty ev
             (stateOf (handle (rippleOptions hs disabled disableRipple
                                             disableProgrammaticRipple)
                              ty ev r)))
  = stateOf (handle (rippleOptions hs disabled disableRipple
                                   disableProgrammaticRipple) ty ev r).
Proof.
  apply retrigger_same_state.
  - exact createRipple_idempotent.
  - exact releaseRipple_idempotent.
Qed.

Lemma ripple_retrigger_idempotent_witness :
  isDown mousedown || isUp mousedown = true
  /\ stateOf (handle (rippleOptions exampleHandlers false false false)
                mousedown pressEvent
                (stateOf (handle (rippleOptions exampleHandlers false false
                                                false)
                                 mousedown pressEvent NoRipple)))
     = stateOf (handle (rippleOptions exampleHandlers false false false)
                       mousedown pressEvent NoRipple).
Proof.
  split.
  - reflexivity.
  - apply (@ripple_retrigger_idempotent exampleHandlers false false false
             mousedown pressEvent NoRipple).
    reflexivity.
Defined.

Lemma disabled_returns_supplied_handlers_witness :
  rippleDisabledFor (rippleOptions exampleHandlers false true false) mousedown
  = true
  /\ (handlerFor mousedown
        (useRippleHandlers (rippleOptions exampleHandlers false true false))
      = provided (handlerFor mousedown
                    (handlers (rippleOptions exampleHandlers false true
                                             false)))
      /\ forall (ev : Event) (r : RippleState),
           stateOf (handle (rippleOptions exampleHandlers false true false)
                           mousedown ev r) = r
           /\ traceOf (handle (rippleOptions exampleHandlers false true false)
                              mousedown ev r)
              = userCall (handlerFor mousedown
                            (handlers (rippleOptions exampleHandlers false
                                                     true false))) ev
           /\ forallb isCall
                (traceOf (handle (rippleOptions exampleHandlers false true
                                                false) mousedown ev r))
              = true).
Proof.
  split.
  - reflexivity.
  - apply (@disabled_returns_supplied_handlers RippleState
             (rippleOptions exampleHandlers false true false) mousedown).
    reflexivity.
Defined.

(** A press and a release, with the caller's handlers called first. *)
Example press_and_release :
  run_press = (tt, Released pressEvent,
               [Called 2 pressEvent; Did (Create pressEvent);
                Called 3 pressEvent; Did (Release pressEvent)]).
Proof. reflexivity. Qed.

End RippleTheory.

(* ================================================================== *)
(** * Properties of useKeyboardClickPolyfill *)
(* ================================================================== *)

Module KeyboardClickTheory.
Import React KeyboardClick ReactTheory.
Local Open Scope string_scope.
Local Open Scope list_scope.

Lemma click_callbackFirst (cb : option callback) (dsc : bool) :
  callbackFirst cb (handleKeyDown cb dsc).
Proof.
  intros ev s. unfold handleKeyDown.
  cbv [bind ret perform callIfPresent when traceOf].
  split_ifs; eexists; split; reflexivity.
Qed.

Lemma click_sameTransition (cb : option callback) (dsc : bool) :
  sameTransition (handleKeyDown cb dsc) (handleKeyDown None dsc).
Proof.
  intros ev s. unfold handleKeyDown.
  cbv [bind ret perform callIfPresent when traceOf stateOf].
  split_ifs; split; reflexivity.
Qed.

Lemma click_callsNothing (dsc : bool) :
  callsNothing (handleKeyDown None dsc).
Proof.
  intros ev s. unfold handleKeyDown.
  cbv [bind ret perform callIfPresent when traceOf].
  split_ifs; reflexivity.
Qed.

(** C10.  The handler calls the caller's [onKeyDown], if there is one, and
    then makes a synthetic click (stopPropagation and click, preceded by
    preventDefault for Space only) exactly when the key is Enter or Space,
    the target is not a BUTTON, it is not Space on an A, and it is not
    Space with the spacebar click disabled; otherwise it does nothing
    more.  When [disabled], the hook returns the given [onKeyDown] as it
    is. *)
Theorem keyboard_click_polyfill (onKeyDown : option callback)
    (disableSpacebarClick : bool) (event : Event) (s : unit) :
  handleKeyDown onKeyDown disableSpacebarClick event s
  = (tt, s,
     userCall onKeyDown event
     ++ (if clicks disableSpacebarClick event
         then syntheticClick event else []))
  /\ (In (Did Click)
         (traceOf (handleKeyDown onKeyDown disableSpacebarClick event s))
      <-> clicks disableSpacebarClick event = true)
  /\ useKeyboardClickPolyfill onKeyDown true disableSpacebarClick
     = provided onKeyDown
  /\ useKeyboardClickPolyfill onKeyDown false disableSpacebarClick
     = Some (Merged (handleKeyDown onKeyDown disableSpacebarClick)).
Proof.
  assert (Hrun : handleKeyDown onKeyDown disableSpacebarClick event s
                 = (tt, s,
                    userCall onKeyDown event
                    ++ (if clicks disableSpacebarClick event
                        then syntheticClick event else []))).
  { unfold handleKeyDown, clicks, syntheticClick.
    cbv [bind ret perform callIfPresent when].
    destruct onKeyDown, disableSpacebarClick, s,
      (key event =? "Enter"), (key event =? " "),
      (tagName (currentTarget event) =? "BUTTON"),
      (tagName (currentTarget event) =? "A"); reflexivity. }
  split; [exact Hrun|]. split; [|split; reflexivity].
  rewrite Hrun. unfold traceOf, syntheticClick. cbn [snd].
  destruct (clicks disableSpacebarClick event).
  - split; [reflexivity|]. intros _.
    apply in_or_app. right. apply in_or_app. right. cbn. tauto.
  - split; [|discriminate]. intros Hin. rewrite app_nil_r in Hin.
    destruct onKeyDown; cbn in Hin; intuition discriminate.
Qed.

(** Enter on a [div] clicks; Space on a link and any key on a button do
    not. *)
Example enter_on_div :
  traceOf (handleKeyDown (Some 5) false (keydown "Enter" "DIV") tt)
  = [Called 5 (keydown "Enter" "DIV"); Did StopPropagation; Did Click].
Proof. reflexivity. Qed.

Example space_on_div :
  traceOf (handleKeyDown None false (keydown " " "DIV") tt)
  = [Did PreventDefault; Did StopPropagation; Did Click].
Proof. reflexivity. Qed.

Example space_on_link :
  traceOf (handleKeyDown (Some 5) false (keydown " " "A") tt)
  = [Called 5 (keydown " " "A")].
Proof. reflexivity. Qed.

Example enter_on_button :
  traceOf (handleKeyDown None false (keydown "Enter" "BUTTON") tt) = [].
Proof. reflexivity. Qed.

End KeyboardClickTheory.

(* ================================================================== *)
(** * Merged handlers *)
(* ================================================================== *)

Module MergedHandlers.
Import React ReactTheory.

(** C4.  Every merged handler (the tooltip's mouse, keyboard and touch
    handlers, the ripple handlers and the keyboard click polyfill) calls the
    caller-supplied handler first: for every event and state its trace is
    the call of that handler, followed by actions of the hook only (starting
    or stopping a timer, setting the interaction mode, creating, releasing
    or cancelling a ripple, clicking). *)
Theorem callback_invoked_first :
  (forall (h : Tooltip.mergedHandler) (o : Tooltip.TooltipOptions),
      callbackFirst (Tooltip.supplied h o) (Tooltip.body h o))
  /\ (forall (R : Type) (o : Ripple.Options R) (ty : Ripple.eventType),
         callbackFirst (Ripple.handlerFor ty (Ripple.handlers o))
                       (Ripple.merged o ty))
  /\ (forall (onKeyDown : option callback) (disableSpacebarClick : bool),
         callbackFirst onKeyDown
           (KeyboardClick.handleKeyDown onKeyDown disableSpacebarClick)).
Proof.
  split; [|split].
  - exact TooltipTheory.tooltip_callbackFirst.
  - exact RippleTheory.ripple_callbackFirst.
  - exact KeyboardClickTheory.click_callbackFirst.
Qed.

(** C5.  The caller-supplied handler is optional in every merged handler:
    whichever handlers are supplied, the handler makes the same transition
    (same resulting state, same actions of the hook in the same order), and
    with none supplied it calls nothing and still makes it. *)
Theorem callback_is_optional :
  (forall (h : Tooltip.mergedHandler) (o : Tooltip.TooltipOptions)
          (m : Tooltip.MergableMouseHandlers callback)
          (k : Tooltip.MergableKeyboardHandlers callback)
          (t : Tooltip.MergableTouchHandlers callback),
      sameTransition (Tooltip.body h (Tooltip.withCallbacks m k t o))
                     (Tooltip.body h o))
  /\ (forall (h : Tooltip.mergedHandler) (o : Tooltip.TooltipOptions),
         callsNothing (Tooltip.body h (Tooltip.withoutCallbacks o)))
  /\ (forall (R : Type) (o : Ripple.Options R)
             (hs : Ripple.Handlers.t callback) (ty : Ripple.eventType),
         sameTransition (Ripple.merged (Ripple.withHandlers hs o) ty)
                        (Ripple.merged o ty))
  /\ (forall (R : Type) (o : Ripple.Options R) (ty : Ripple.eventType),
         callsNothing
           (Ripple.merged
              (Ripple.withHandlers (Ripple.Handlers.none callback) o) ty))
  /\ (forall (onKeyDown : option callback) (disableSpacebarClick : bool),
         sameTransition
           (KeyboardClick.handleKeyDown onKeyDown disableSpacebarClick)
           (KeyboardClick.handleKeyDown None disableSpacebarClick))
  /\ (forall disableSpacebarClick : bool,
         callsNothing (KeyboardClick.handleKeyDown None disableSpacebarClick)).
Proof.
  repeat split.
  - apply TooltipTheory.tooltip_sameTransition.
  - apply TooltipTheory.tooltip_sameTransition.
  - apply TooltipTheory.tooltip_callsNothing.
  - apply RippleTheory.ripple_sameTransition.
  - apply RippleTheory.ripple_sameTransition.
  - apply RippleTheory.ripple_callsNothing.
  - apply KeyboardClickTheory.click_sameTransition.
  - apply KeyboardClickTheory.click_sameTransition.
  - apply KeyboardClickTheory.click_callsNothing.
Qed.

End MergedHandlers.

(* ================================================================== *)
(** * More about GridList *)
(* ================================================================== *)

Module GridListExtra.
Import Binary64 Binary64Theory GridList GridSamples GridListTheory.
Local Open Scope Q_scope.

Lemma Qdiv_monotone (w1 w2 m : Q) :
  0 < m -> w1 <= w2 -> w1 / m <= w2 / m.
Proof.
  intros Hm Hle. unfold Qdiv.
  apply Qmult_le_compat_r; [assumption|].
  apply Qlt_le_weak, Qinv_lt_0_compat. assumption.
Qed.

(** Dividing by a positive finite double keeps the order. *)
Lemma ddiv_monotone (x y m : double) :
  dltb (Zero false) m = true -> dltb m (Infinity false) = true ->
  dleb x y = true ->
  dleb (ddiv x m) (ddiv y m) = true.
Proof.
  destruct m as [|s|s|a]; cbn [dltb]; intros M0 M1; try discriminate.
  { destruct s; discriminate. }
  bool_to_Q. pose proof (isNegative_pos M0) as N.
  assert (P : forall q, 0 <= q -> 0 <= q / a).
  { intros q Hq. apply Qle_shift_div_l; [exact M0|]. rewrite Qmult_0_l.
    exact Hq. }
  assert (P' : forall q, q <= 0 -> q / a <= 0).
  { intros q Hq. apply Qle_shift_div_r; [exact M0|]. rewrite Qmult_0_l.
    exact Hq. }
  destruct x as [|sx|sx|p], y as [|sy|sy|q]; intros L;
    cbn [dleb] in L; try discriminate; cbn [ddiv];
    rewrite ?N, ?xorb_false_r; try (cbn [dleb]; exact L); try reflexivity;
    bool_to_Q.
  - subst sx. apply dleb_Infinity_true, round_not_NaN.
  - apply round_nonneg, P, L.
  - subst sy. apply dleb_Infinity_false, round_not_NaN.
  - apply round_nonpos, P', L.
  - apply round_monotone, Qdiv_monotone; assumption.
Qed.

(** A positive finite double divided by itself is one. *)
Lemma ddiv_self (m : double) :
  dltb (Zero false) m = true -> dltb m (Infinity false) = true ->
  ddiv m m = Finite 1.
Proof.
  destruct m as [|s|s|a]; cbn [dltb]; intros M0 M1; try discriminate.
  { destruct s; discriminate. }
  bool_to_Q. cbn [ddiv]. apply (@round_Z (a / a) 1).
  - unfold prec. lia.
  - change (inject_Z 1) with 1. field. lra.
Qed.

(** X1.  For a positive finite maximal cell size, a container at least as
    wide as one cell gets at least one column, and one no wider than a cell
    gets at most one. *)
Theorem columns_around_one_cell (props : GridListProps double)
    (el : HTMLDivElement double) (sb : double) (size : GridListSize double) :
  dltb (Zero false) (maxCellSize props) = true ->
  dltb (maxCellSize props) (Infinity false) = true ->
  let w := effectiveWidth el (containerPadding props) sb in
  let grid := gridSize (recalculate props sb
                          {| ref_current := Some el; gridSize := size |}) in
  (dleb (maxCellSize props) w = true -> dleb (Finite 1) (columns grid) = true)
  /\ (dleb w (maxCellSize props) = true
      -> dleb (columns grid) (Finite 1) = true).
Proof.
  intros M0 M1 w grid. subst grid. rewrite recalculate_width.
  cbn [gridSize columns]. cbn [ceil div DoubleNumber]. fold w.
  change (Finite 1) with (dceil (Finite 1)).
  rewrite <- (ddiv_self _ M0 M1).
  split; intros L; apply dceil_monotone, ddiv_monotone; assumption.
Qed.

(** X2.  For a positive finite maximal cell size, a container whose
    computed effective width is larger never gets fewer columns. *)
Theorem columns_monotone_in_width (props : GridListProps double)
    (el1 el2 : HTMLDivElement double) (sb : double)
    (size : GridListSize double) :
  dltb (Zero false) (maxCellSize props) = true ->
  dltb (maxCellSize props) (Infinity false) = true ->
  dleb (effectiveWidth el1 (containerPadding props) sb)
       (effectiveWidth el2 (containerPadding props) sb) = true ->
  dleb
    (columns (gridSize (recalculate props sb
                          {| ref_current := Some el1; gridSize := size |})))
    (columns (gridSize (recalculate props sb
                          {| ref_current := Some el2; gridSize := size |})))
  = true.
Proof.
  intros M0 M1 L. rewrite !recalculate_width. cbn [gridSize columns].
  cbn [ceil div DoubleNumber].
  apply dceil_monotone, ddiv_monotone; assumption.
Qed.

(** The widths compared are the computed ones.  With padding 6.6 and a
    scrollbar 18 wide, an overflowing element 73 wide and an element 55 wide
    have the same exact width 48.4, but the first is computed as
    48.400000000000006: with cells of at most 12.1 it gets 5 columns, the
    second 4. *)
Example computed_widths_differ :
  let props := {| maxCellSize := ofQ (121 # 10);
                  containerPadding := ofQ (66 # 10);
                  defaultSize := None |} in
  let wide := {| offsetWidth := ofZ 73; offsetHeight := ofZ 100;
                 scrollHeight := ofZ 200 |} in
  let narrow := {| offsetWidth := ofZ 55; offsetHeight := ofZ 100;
                   scrollHeight := ofZ 100 |} in
  effectiveWidth wide (containerPadding props) (ofZ 18)
  = ofQ (48400000000000006 # 1000000000000000)
  /\ effectiveWidth narrow (containerPadding props) (ofZ 18)
     = ofQ (484 # 10)
  /\ columns (gridSize (recalculate props (ofZ 18)
                          {| ref_current := Some wide;
                             gridSize := initialGridSize props |}))
     = ofZ 5
  /\ columns (gridSize (recalculate props (ofZ 18)
                          {| ref_current := Some narrow;
                             gridSize := initialGridSize props |}))
     = ofZ 4.
Proof. vm_compute. repeat split; reflexivity. Qed.

(** X3.  When the computed effective width is exactly [k] times the
    maximal cell size, itself a double, for a whole [k] from 1 to below
    [2^53], the grid has [k] columns and every cell has the maximal
    size. *)
Theorem exact_fit (props : GridListProps double) (el : HTMLDivElement double)
    (sb : double) (size : GridListSize double) (w m : Q) (k : Z) :
  maxCellSize props = Finite m ->
  isDouble (maxCellSize props) = true ->
  effectiveWidth el (containerPadding props) sb = Finite w ->
  0 < m ->
  (0 < k < 2 ^ prec)%Z ->
  w == inject_Z k * m ->
  let grid := gridSize (recalculate props sb
                          {| ref_current := Some el; gridSize := size |}) in
  columns grid = Finite (inject_Z k)
  /\ deqb (cellWidth grid) (maxCellSize props) = true.
Proof.
  intros Em D Ew Hm Hk Hw grid. subst grid. rewrite recalculate_width.
  cbn [gridSize columns cellWidth]. cbn [ceil div DoubleNumber].
  rewrite Ew, Em in *. cbn [ddiv].
  assert (Hq : w / m == inject_Z k) by (rewrite Hw; field; lra).
  rewrite (round_Z Hk Hq). cbn [dceil]. rewrite Qceiling_Z.
  destruct (Z.eqb_spec k 0) as [E|_]; [lia|].
  split; [reflexivity|]. cbn [ddiv].
  assert (Hc : w / inject_Z k == m).
  { rewrite Hw. field. intros E. apply (inject_Z_injective k 0) in E. lia. }
  rewrite (round_comp Hc). exact D.
Qed.

(** The fit has to be exact in doubles.  An element 2832 wide with padding
    314.1000000000001 has the computed width 2517.9, which is not 7 times
    the double 359.7: it gets 8 columns, 314.7375 wide. *)
Example fit_is_of_doubles :
  let props := {| maxCellSize := ofQ (3597 # 10);
                  containerPadding := ofQ (3141000000000001 # 10000000000000);
                  defaultSize := None |} in
  let el := {| offsetWidth := ofZ 2832; offsetHeight := ofZ 0;
               scrollHeight := ofZ 0 |} in
  effectiveWidth el (containerPadding props) (ofZ 0) = ofQ (25179 # 10)
  /\ gridSize (recalculate props (ofZ 0)
                 {| ref_current := Some el;
                    gridSize := initialGridSize props |})
     = {| columns := ofZ 8; cellWidth := ofQ (3147375 # 10000) |}.
Proof. vm_compute. repeat split; reflexivity. Qed.

(** X4.  Of two elements of the same finite offset width, the one whose
    content overflows (and so shows a scrollbar, of a finite width that is
    not negative) never gets more columns. *)
Theorem overflow_narrows (props : GridListProps double)
    (el1 el2 : HTMLDivElement double) (sb : double)
    (size : GridListSize double) :
  isDouble (offsetWidth el2) = true -> isFinite (offsetWidth el2) = true ->
  isDouble (containerPadding props) = true ->
  isFinite (containerPadding props) = true ->
  dltb (Zero false) (maxCellSize props) = true ->
  dltb (maxCellSize props) (Infinity false) = true ->
  dleb (Zero false) sb = true ->
  dltb sb (Infinity false) = true ->
  offsetWidth el1 = offsetWidth el2 ->
  overflows el1 = true ->
  overflows el2 = false ->
  dleb
    (columns (gridSize (recalculate props sb
                          {| ref_current := Some el1; gridSize := size |})))
    (columns (gridSize (recalculate props sb
                          {| ref_current := Some el2; gridSize := size |})))
  = true.
Proof.
  intros Dw Fw Dp Fp M0 M1 S0 S1 Hw H1 H2.
  rewrite !recalculate_width. cbn [gridSize columns].
  cbn [ceil div DoubleNumber].
  apply dceil_monotone, ddiv_monotone; try assumption.
  unfold effectiveWidth. rewrite H1, H2, Hw. cbn [sub DoubleNumber].
  apply dsub_le; try assumption.
  - apply dsub_isDouble; assumption.
  - apply dsub_not_NaN; assumption.
Qed.

Lemma columns_around_one_cell_witness :
  dltb (Zero false) (maxCellSize defaultProps) = true
  /\ dltb (maxCellSize defaultProps) (Infinity false) = true
  /\ dleb (maxCellSize defaultProps)
          (effectiveWidth testElement (containerPadding defaultProps)
                          (ofZ 0)) = true
  /\ dleb (Finite 1)
          (columns (gridSize (recalculate defaultProps (ofZ 0)
                      {| ref_current := Some testElement;
                         gridSize := initialGridSize defaultProps |})))
     = true.
Proof.
  assert (M0 : dltb (Zero false) (maxCellSize defaultProps) = true)
    by (vm_compute; reflexivity).
  assert (M1 : dltb (maxCellSize defaultProps) (Infinity false) = true)
    by (vm_compute; reflexivity).
  assert (L : dleb (maxCellSize defaultProps)
                (effectiveWidth testElement (containerPadding defaultProps)
                                (ofZ 0)) = true)
    by (vm_compute; reflexivity).
  split; [exact M0|]. split; [exact M1|]. split; [exact L|].
  exact (proj1 (@columns_around_one_cell defaultProps testElement (ofZ 0)
                  (initialGridSize defaultProps) M0 M1) L).
Defined.

Lemma columns_monotone_in_width_witness :
  dltb (Zero false) (maxCellSize defaultProps) = true
  /\ dltb (maxCellSize defaultProps) (Infinity false) = true
  /\ dleb (effectiveWidth narrowElement (containerPadding defaultProps)
                          (ofZ 0))
          (effectiveWidth testElement (containerPadding defaultProps)
                          (ofZ 0)) = true
  /\ dleb
       (columns (gridSize (recalculate defaultProps (ofZ 0)
                   {| ref_current := Some narrowElement;
                      gridSize := initialGridSize defaultProps |})))
       (columns (gridSize (recalculate defaultProps (ofZ 0)
                   {| ref_current := Some testElement;
                      gridSize := initialGridSize defaultProps |})))
     = true.
Proof.
  split; [vm_compute; reflexivity|]. split; [vm_compute; reflexivity|].
  split; [vm_compute; reflexivity|].
  apply (@columns_monotone_in_width defaultProps narrowElement testElement
           (ofZ 0) (initialGridSize defaultProps)); vm_compute; reflexivity.
Defined.

Lemma exact_fit_witness :
  maxCellSize defaultProps = Finite 150
  /\ isDouble (maxCellSize defaultProps) = true
  /\ effectiveWidth narrowElement (containerPadding defaultProps) (ofZ 0)
     = Finite 600
  /\ 0 < 150
  /\ (0 < 4 < 2 ^ prec)%Z
  /\ 600 == inject_Z 4 * 150
  /\ columns (gridSize (recalculate defaultProps (ofZ 0)
                {| ref_current := Some narrowElement;
                   gridSize := initialGridSize defaultProps |}))
     = Finite (inject_Z 4).
Proof.
  assert (Em : maxCellSize defaultProps = Finite 150)
    by (vm_compute; reflexivity).
  assert (D : isDouble (maxCellSize defaultProps) = true)
    by (vm_compute; reflexivity).
  assert (Ew : effectiveWidth narrowElement (containerPadding defaultProps)
                 (ofZ 0) = Finite 600)
    by (vm_compute; reflexivity).
  assert (Hm : 0 < 150) by reflexivity.
  assert (Hk : (0 < 4 < 2 ^ prec)%Z) by (unfold prec; lia).
  assert (Hw : 600 == inject_Z 4 * 150) by reflexivity.
  split; [exact Em|]. split; [exact D|]. split; [exact Ew|].
  split; [exact Hm|]. split; [exact Hk|]. split; [exact Hw|].
  exact (proj1 (@exact_fit defaultProps narrowElement (ofZ 0)
                  (initialGridSize defaultProps) 600 150 4
                  Em D Ew Hm Hk Hw)).
Defined.

Lemma overflow_narrows_witness :
  offsetWidth overflowingElement = offsetWidth testElement
  /\ overflows overflowingElement = true
  /\ overflows testElement = false
  /\ dleb
       (columns (gridSize (recalculate defaultProps (ofZ 15)
                   {| ref_current := Some overflowingElement;
                      gridSize := initialGridSize defaultProps |})))
       (columns (gridSize (recalculate defaultProps (ofZ 15)
                   {| ref_current := Some testElement;
                      gridSize := initialGridSize defaultProps |})))
     = true.
Proof.
  split; [reflexivity|]. split; [vm_compute; reflexivity|].
  split; [vm_compute; reflexivity|].
  apply (@overflow_narrows defaultProps overflowingElement testElement
           (ofZ 15) (initialGridSize defaultProps));
    vm_compute; reflexivity.
Defined.

Section AnyArithmetic.
Context {num : Type} `{Number num}.

(** X5.  Once the ref handler has run, recalculating again (as the resize
    observer does, any number of times) changes nothing as long as the
    element and the props are the same: the grid size depends on them
    only, not on the size computed before. *)
Theorem resize_is_idempotent (props : GridListProps num) (sb : num)
    (instance : option (HTMLDivElement num)) (inst : GridListState num)
    (n : nat) :
  Nat.iter n (recalculate props sb) (refHandler props sb instance inst)
  = refHandler props sb instance inst.
Proof.
  induction n as [|n IH]; [reflexivity|].
  rewrite Nat.iter_succ, IH.
  destruct instance as [el|]; cbn [refHandler].
  - rewrite recalculate_width. apply recalculate_width.
  - reflexivity.
Qed.
End AnyArithmetic.

End GridListExtra.

(* ================================================================== *)
(** * More about the tooltip hooks *)
(* ================================================================== *)

Module TooltipExtra.
Import React Tooltip Gestures ReactTheory TooltipTheory.
Local Open Scope string_scope.
Local Open Scope list_scope.
Local Open Scope nat_scope.

Ltac leb_facts :=
  repeat match goal with
  | H : (_ <=? _) = true |- _ => apply Nat.leb_le in H
  | H : (_ <=? _) = false |- _ => apply Nat.leb_gt in H
  | H : (_ =? _)%string = true |- _ => apply String.eqb_eq in H
  end.

Ltac in_trace :=
  cbn; repeat (first [left; reflexivity | right]).

Ltac not_in_trace :=
  let Hin := fresh "Hin" in
  intros Hin; cbn in Hin;
  repeat (destruct Hin as [Hin|Hin]; try discriminate Hin); try contradiction.

Lemma is_mode (o : TooltipOptions) (m : UserInteractionMode) :
  mode o = m -> (mode o =? m)%string = true.
Proof. intros ->. apply String.eqb_refl. Qed.

Lemma is_not_mode (o : TooltipOptions) (m : UserInteractionMode) :
  mode o <> m -> (mode o =? m)%string = false.
Proof. intros Hm. apply String.eqb_neq. exact Hm. Qed.

(** ** Visible only when initiated *)

Lemma step_keeps_initiatedWhenVisible (o : TooltipOptions) (l : label)
    (st : State) :
  initiatedWhenVisible st -> initiatedWhenVisible (stateOf (step o l st)).
Proof.
  unfold initiatedWhenVisible. intros Hinv.
  destruct l as [ | | | | | | | | | | | |f]; try destruct f;
    hook_unfold; cbn.
  all: split_ifs; intros E; try discriminate E; try reflexivity.
  all: try (apply Hinv; exact E).
  all: tidy; rewrite E in *; discriminate.
Qed.

(** X6.  Whatever happens to a mounted widget, while [initiated.current] is
    [null] the tooltip is not visible: the hooks show the tooltip only
    after the interaction mode has been written, and nothing resets the
    mode without hiding. *)
Theorem visible_only_when_initiated (o0 : TooltipOptions)
    (ls : list (TooltipOptions * label)) :
  initiated (stateOf (run ls (mount o0))) = None ->
  visible (stateOf (run ls (mount o0))) = false.
Proof.
  assert (Hgen : forall st, initiatedWhenVisible st ->
                            initiatedWhenVisible (stateOf (run ls st))).
  { induction ls as [|[o l] ls IH]; intros st Hinv; [exact Hinv|].
    rewrite run_cons_state. apply IH.
    apply step_keeps_initiatedWhenVisible. exact Hinv. }
  apply Hgen. intros _. reflexivity.
Qed.

Lemma visible_only_when_initiated_witness :
  initiated (stateOf (run (hoverGesture (exampleOptions "mouse")
                                        exampleEvent 1000
                           ++ [(exampleOptions "mouse",
                                MouseLeave exampleEvent)])
                          (mount (exampleOptions "mouse")))) = None
  /\ visible (stateOf (run (hoverGesture (exampleOptions "mouse")
                                         exampleEvent 1000
                            ++ [(exampleOptions "mouse",
                                 MouseLeave exampleEvent)])
                           (mount (exampleOptions "mouse")))) = false.
Proof.
  split.
  - reflexivity.
  - apply (@visible_only_when_initiated (exampleOptions "mouse")
             (hoverGesture (exampleOptions "mouse") exampleEvent 1000
              ++ [(exampleOptions "mouse", MouseLeave exampleEvent)])).
    reflexivity.
Defined.

(** ** The tooltip does appear *)

(** X7.  Outside touch mode, when the pointer enters an element whose
    tooltip has not been initiated and nothing else happens, the mouse
    timer shows the tooltip exactly when the delay of the mouse flow has
    elapsed; the tooltip is then visible, and it is initiated by the mouse
    either way. *)
Theorem hover_shows_once_delay_elapsed (o : TooltipOptions) (event : Event)
    (ms : nat) (st : State) :
  mode o <> "touch" ->
  initiated st = None ->
  (In (Did ShowTooltip) (traceOf (run (hoverGesture o event ms) st))
   <-> mouseDelay o <= ms)
  /\ (mouseDelay o <= ms ->
      visible (stateOf (run (hoverGesture o event ms) st)) = true)
  /\ initiated (stateOf (run (hoverGesture o event ms) st)) = Some "mouse".
Proof.
  intros Hmode Hinit. apply is_not_mode in Hmode.
  destruct st; cbn in Hinit; subst.
  unfold hoverGesture. cbn [run].
  hook_unfold. rewrite !Hmode.
  split_ifs.
  all: leb_facts.
  all: (split; [split; [intros Hin; try lia; exfalso; revert Hin; not_in_trace
                       | intros Hle; try lia; in_trace]|]).
  all: split; [intros Hle; try lia; reflexivity | reflexivity].
Qed.

Lemma hover_shows_once_delay_elapsed_witness :
  mode (exampleOptions "mouse") <> "touch"
  /\ initiated (mount (exampleOptions "mouse")) = None
  /\ (In (Did ShowTooltip)
         (traceOf (run (hoverGesture (exampleOptions "mouse") exampleEvent
                                     1000)
                       (mount (exampleOptions "mouse"))))
      <-> mouseDelay (exampleOptions "mouse") <= 1000).
Proof.
  split; [discriminate|]. split; [reflexivity|].
  apply (@hover_shows_once_delay_elapsed (exampleOptions "mouse")
           exampleEvent 1000 (mount (exampleOptions "mouse"))).
  - discriminate.
  - reflexivity.
Defined.

(** X8.  In keyboard mode, when the element is focused while the window is
    not marked as blurred and nothing else happens, the keyboard timer
    shows the tooltip exactly when [delay] has elapsed, whatever initiated
    the tooltip before; the tooltip is initiated by the keyboard either
    way. *)
Theorem focus_shows_once_delay_elapsed (o : TooltipOptions) (event : Event)
    (ms : nat) (st : State) :
  mode o = "keyboard" ->
  isWindowBlurred st = false ->
  (In (Did ShowTooltip) (traceOf (run (focusGesture o event ms) st))
   <-> delay o <= ms)
  /\ (delay o <= ms ->
      visible (stateOf (run (focusGesture o event ms) st)) = true)
  /\ initiated (stateOf (run (focusGesture o event ms) st)) = Some "keyboard".
Proof.
  intros Hmode Hblur. apply is_mode in Hmode.
  destruct st; cbn in Hblur; subst.
  unfold focusGesture. cbn [run].
  hook_unfold. rewrite !Hmode.
  split_ifs.
  all: leb_facts.
  all: (split; [split; [intros Hin; try lia; exfalso; revert Hin; not_in_trace
                       | intros Hle; try lia; in_trace]|]).
  all: split; [intros Hle; try lia; reflexivity | reflexivity].
Qed.

Lemma focus_shows_once_delay_elapsed_witness :
  mode keyboardOptions = "keyboard"
  /\ isWindowBlurred (mount keyboardOptions) = false
  /\ (In (Did ShowTooltip)
         (traceOf (run (focusGesture keyboardOptions exampleEvent 400)
                       (mount keyboardOptions)))
      <-> delay keyboardOptions <= 400).
Proof.
  split; [reflexivity|]. split; [reflexivity|].
  apply (@focus_shows_once_delay_elapsed keyboardOptions exampleEvent 400
           (mount keyboardOptions)); reflexivity.
Defined.

(** ** Leaving the window and coming back *)

Lemma window_hidden (o : TooltipOptions) (st : State) :
  (mode o =? "keyboard")%string = true ->
  isWindowBlurred (stateOf (step o (VisibilityChange true) st)) = true
  /\ visible (stateOf (step o (VisibilityChange true) st)) = false
  /\ timerOf KeyboardFlow (stateOf (step o (VisibilityChange true) st))
     = timerOf KeyboardFlow st.
Proof.
  intros Hmode. destruct st. hook_unfold. rewrite !Hmode.
  split_ifs; repeat split.
Qed.

Lemma window_shown (o : TooltipOptions) (st : State) :
  (mode o =? "keyboard")%string = true ->
  isWindowBlurred (stateOf (step o (VisibilityChange false) st))
  = isWindowBlurred st
  /\ visible (stateOf (step o (VisibilityChange false) st)) = visible st
  /\ frameRequested (stateOf (step o (VisibilityChange false) st)) = true.
Proof.
  intros Hmode. destruct st. hook_unfold. rewrite !Hmode.
  split_ifs; repeat split.
Qed.

Lemma frame_clears_blur (o : TooltipOptions) (st : State) :
  frameRequested st = true ->
  isWindowBlurred (stateOf (step o AnimationFrame st)) = false.
Proof.
  intros Hf. destruct st; cbn in Hf; subst. hook_unfold.
  split_ifs; reflexivity.
Qed.

Lemma focus_while_blurred (o : TooltipOptions) (event : Event) (st : State) :
  (mode o =? "keyboard")%string = true ->
  isWindowBlurred st = true ->
  visible st = false ->
  actionsOf (traceOf (step o (Focus event) st)) = [WriteWindowBlurred false]
  /\ isWindowBlurred (stateOf (step o (Focus event) st)) = false
  /\ timerOf KeyboardFlow (stateOf (step o (Focus event) st))
     = timerOf KeyboardFlow st.
Proof.
  intros Hmode Hb Hv. destruct st; cbn in Hb, Hv; subst.
  hook_unfold. rewrite !Hmode.
  split_ifs; repeat split.
Qed.

Lemma focus_starts_timer (o : TooltipOptions) (event : Event) (st : State) :
  (mode o =? "keyboard")%string = true ->
  isWindowBlurred st = false ->
  In (Did (TimerStart KeyboardFlow)) (traceOf (step o (Focus event) st)).
Proof.
  intros Hmode Hb. destruct st; cbn in Hb; subst.
  hook_unfold. rewrite !Hmode.
  split_ifs; in_trace.
Qed.

(** X9.  In keyboard mode, when the page becomes hidden the tooltip is
    hidden, and the next focus event only clears the window-blurred mark:
    it starts no timer and writes no interaction mode, so that re-focusing
    the window does not bring the tooltip back.  The focus event after
    that one starts the keyboard timer again. *)
Theorem window_blur_suppresses_next_focus (o : TooltipOptions)
    (event event' : Event) (st : State) :
  mode o = "keyboard" ->
  visible (stateOf (step o (VisibilityChange true) st)) = false
  /\ actionsOf (traceOf (step o (Focus event)
                          (stateOf (step o (VisibilityChange true) st))))
     = [WriteWindowBlurred false]
  /\ timerOf KeyboardFlow
       (stateOf (run [(o, VisibilityChange true); (o, Focus event)] st))
     = timerOf KeyboardFlow st
  /\ In (Did (TimerStart KeyboardFlow))
        (traceOf (step o (Focus event')
                    (stateOf (run [(o, VisibilityChange true);
                                   (o, Focus event)] st)))).
Proof.
  intros Hmode. apply is_mode in Hmode.
  destruct (window_hidden o st Hmode) as (Hb & Hv & Ht).
  destruct (focus_while_blurred o event _ Hmode Hb Hv) as (Ha & Hb' & Ht').
  rewrite !run_cons_state. cbn [run ret stateOf fst snd].
  repeat split; try assumption.
  - congruence.
  - apply focus_starts_timer; assumption.
Qed.

Lemma window_blur_suppresses_next_focus_witness :
  mode keyboardOptions = "keyboard"
  /\ actionsOf (traceOf (step keyboardOptions (Focus exampleEvent)
                           (stateOf (step keyboardOptions
                                          (VisibilityChange true)
                                          (mount keyboardOptions)))))
     = [WriteWindowBlurred false].
Proof.
  split; [reflexivity|].
  apply (@window_blur_suppresses_next_focus keyboardOptions exampleEvent
           exampleEvent (mount keyboardOptions)).
  reflexivity.
Defined.

(** X10.  In keyboard mode, after the page was hidden and has become
    visible again, a focus event that arrives before the requested
    animation frame is still swallowed, and one that arrives after the
    frame starts the keyboard timer. *)
Theorem focus_works_again_after_frame (o : TooltipOptions) (event : Event)
    (st : State) :
  mode o = "keyboard" ->
  actionsOf (traceOf (step o (Focus event)
                       (stateOf (run [(o, VisibilityChange true);
                                      (o, VisibilityChange false)] st))))
  = [WriteWindowBlurred false]
  /\ In (Did (TimerStart KeyboardFlow))
        (traceOf (step o (Focus event)
                    (stateOf (run [(o, VisibilityChange true);
                                   (o, VisibilityChange false);
                                   (o, AnimationFrame)] st)))).
Proof.
  intros Hmode. apply is_mode in Hmode.
  destruct (window_hidden o st Hmode) as (Hb & Hv & _).
  destruct (window_shown o (stateOf (step o (VisibilityChange true) st)) Hmode)
    as (Hb' & Hv' & Hf).
  rewrite !run_cons_state. cbn [run ret stateOf fst snd].
  split.
  - apply focus_while_blurred; congruence.
  - apply focus_starts_timer; [assumption|].
    apply frame_clears_blur. assumption.
Qed.

Lemma focus_works_again_after_frame_witness :
  mode keyboardOptions = "keyboard"
  /\ In (Did (TimerStart KeyboardFlow))
        (traceOf (step keyboardOptions (Focus exampleEvent)
                    (stateOf (run [(keyboardOptions, VisibilityChange true);
                                   (keyboardOptions, VisibilityChange false);
                                   (keyboardOptions, AnimationFrame)]
                                  (mount keyboardOptions))))).
Proof.
  split; [reflexivity|].
  apply (@focus_works_again_after_frame keyboardOptions exampleEvent
           (mount keyboardOptions)).
  reflexivity.
Defined.

(** ** Touch *)

(** X11.  Once the finger has moved, a context menu event is left alone,
    in every mode: the tooltip is not shown and the default of the event
    is not prevented, so the browser's own context menu can appear. *)
Theorem moved_finger_gets_context_menu (o o' : TooltipOptions)
    (event event' : Event) (st : State) :
  touched (stateOf (step o (TouchMove event) st)) = false
  /\ ~ In (Did ShowTooltip)
         (traceOf (step o' (ContextMenu event')
                     (stateOf (step o (TouchMove event) st))))
  /\ ~ In (Did EventPreventDefault)
         (traceOf (step o' (ContextMenu event')
                     (stateOf (step o (TouchMove event) st)))).
Proof.
  destruct st. hook_unfold.
  split_ifs.
  all: split; [reflexivity|]; split; not_in_trace.
Qed.

Lemma leb_plus_l (n a b : nat) : (n + a <=? n + b) = (a <=? b).
Proof.
  destruct (a <=? b) eqn:E; leb_facts.
  - apply Nat.leb_le. lia.
  - apply Nat.leb_gt. lia.
Qed.

Lemma long_press_shows (o : TooltipOptions) (event : Event) (st : State) :
  (mode o =? "touch")%string = true ->
  visible st = false ->
  In (Did ShowTooltip) (traceOf (run (longPress o event) st))
  /\ visible (stateOf (run (longPress o event) st)) = true
  /\ initiated (stateOf (run (longPress o event) st)) = Some "touch"
  /\ touchTimer (stateOf (run (longPress o event) st)) = None
  /\ touchEndListener (stateOf (run (longPress o event) st)) = true
  /\ effectDeps (stateOf (run (longPress o event) st)) = (true, mode o).
Proof.
  intros Hmode Hvis. destruct st; cbn in Hvis; subst.
  unfold longPress. cbn [run].
  hook_unfold. rewrite !Hmode.
  split_ifs.
  all: repeat split; in_trace.
Qed.

Lemma finger_kept (o : TooltipOptions) (ms : nat) (st : State) :
  visible st = true ->
  touchTimer st = None ->
  visible (stateOf (run (keepFinger o ms) st)) = true.
Proof.
  intros Hvis Ht. destruct st; cbn in Hvis, Ht; subst.
  unfold keepFinger. cbn [run].
  hook_unfold.
  split_ifs; reflexivity.
Qed.

Lemma finger_lifted (o : TooltipOptions) (ms : nat) (st : State) :
  visible st = true ->
  touchEndListener st = true ->
  effectDeps st = (true, mode o) ->
  visible (stateOf (run (liftFinger o ms) st)) = negb (delay o <=? ms).
Proof.
  intros Hvis Hl Hd. destruct st; cbn in Hvis, Hl, Hd; subst.
  unfold liftFinger, keepFinger. cbn [run].
  hook_unfold. cbn. repeat (rewrite String.eqb_refl; cbn).
  rewrite leb_plus_l.
  destruct (delay o <=? ms); split_ifs; reflexivity.
Qed.

(** X12.  In touch mode a long press on an element whose tooltip is not
    visible shows the tooltip at once, initiated by touch.  While the
    finger stays down the tooltip stays visible however much time passes;
    once the finger is lifted the tooltip is hidden exactly when [delay]
    has elapsed since. *)
Theorem touch_tooltip_lifetime (o : TooltipOptions) (event : Event)
    (ms : nat) (st : State) :
  mode o = "touch" ->
  visible st = false ->
  In (Did ShowTooltip) (traceOf (run (longPress o event) st))
  /\ visible (stateOf (run (longPress o event) st)) = true
  /\ initiated (stateOf (run (longPress o event) st)) = Some "touch"
  /\ visible (stateOf (run (keepFinger o ms)
                         (stateOf (run (longPress o event) st)))) = true
  /\ visible (stateOf (run (liftFinger o ms)
                         (stateOf (run (longPress o event) st))))
     = negb (delay o <=? ms).
Proof.
  intros Hmode Hvis. apply is_mode in Hmode.
  destruct (long_press_shows o event st Hmode Hvis)
    as (Hshow & Hv & Hi & Ht & Hl & Hd).
  repeat split; try assumption.
  - apply finger_kept; assumption.
  - apply finger_lifted; assumption.
Qed.

Lemma touch_tooltip_lifetime_witness :
  mode (exampleOptions "touch") = "touch"
  /\ visible (mount (exampleOptions "touch")) = false
  /\ In (Did ShowTooltip)
        (traceOf (run (longPress (exampleOptions "touch") exampleEvent)
                      (mount (exampleOptions "touch")))).
Proof.
  split; [reflexivity|]. split; [reflexivity|].
  apply (@touch_tooltip_lifetime (exampleOptions "touch") exampleEvent 0
           (mount (exampleOptions "touch"))); reflexivity.
Defined.

Lemma step_keeps_listener (o : TooltipOptions) (l : label) (st : State) :
  (touchEndListener st = true -> effectDeps st = (true, "touch")) ->
  (touchEndListener (stateOf (step o l st)) = true ->
   effectDeps (stateOf (step o l st)) = (true, "touch"))
  /\ effectDeps (stateOf (step o l st))
     = (visible (stateOf (step o l st)), mode o).
Proof.
  intros Hinv. destruct st as [? ? ? ? ? ? ? ? ? ? [dv dm]]. cbn in Hinv.
  destruct l as [ | | | | | | | | | | | |f]; try destruct f;
    hook_unfold; cbn.
  all: split_ifs.
  all: tidy; leb_facts;
    repeat match goal with
    | H : Bool.eqb _ _ = true |- _ => apply eqb_prop in H
    end; subst.
  all: split; [intros Hl; try discriminate Hl; try (apply Hinv; exact Hl);
               try congruence; try (f_equal; assumption)
              | try reflexivity; try congruence; try (f_equal; assumption)].
Qed.

(** X13.  After any step of any run of a mounted widget, the [touchend]
    listener of the touch hook is attached to the window only while the
    tooltip is visible and the mode is touch. *)
Theorem touchend_listener_needs_visible_touch (o0 : TooltipOptions)
    (ls : list (TooltipOptions * label)) (o : TooltipOptions) (l : label) :
  touchEndListener (stateOf (run (ls ++ [(o, l)]) (mount o0))) = true ->
  visible (stateOf (run (ls ++ [(o, l)]) (mount o0))) = true
  /\ mode o = "touch".
Proof.
  assert (Hgen : forall (ls' : list (TooltipOptions * label)) (st : State),
             (touchEndListener st = true -> effectDeps st = (true, "touch")) ->
             touchEndListener (stateOf (run ls' st)) = true ->
             effectDeps (stateOf (run ls' st)) = (true, "touch")).
  { induction ls' as [|[o' l'] ls' IH]; intros st Hinv; [exact Hinv|].
    rewrite run_cons_state. apply IH.
    apply (step_keeps_listener o' l' st Hinv). }
  rewrite run_app_state, run_cons_state. cbn [run ret stateOf fst snd].
  intros Hl.
  destruct (step_keeps_listener o l (stateOf (run ls (mount o0))))
    as [Hinv Hdeps].
  - apply Hgen. discriminate.
  - rewrite (Hinv Hl) in Hdeps. injection Hdeps as Hv Hm.
    split; symmetry; assumption.
Qed.

Lemma touchend_listener_needs_visible_touch_witness :
  touchEndListener
    (stateOf (run ([(exampleOptions "touch", TouchStart exampleEvent)]
                   ++ [(exampleOptions "touch", ContextMenu exampleEvent)])
                  (mount (exampleOptions "touch")))) = true
  /\ (visible
        (stateOf (run ([(exampleOptions "touch", TouchStart exampleEvent)]
                       ++ [(exampleOptions "touch",
                            ContextMenu exampleEvent)])
                      (mount (exampleOptions "touch")))) = true
      /\ mode (exampleOptions "touch") = "touch").
Proof.
  split.
  - reflexivity.
  - apply (@touchend_listener_needs_visible_touch (exampleOptions "touch")
             [(exampleOptions "touch", TouchStart exampleEvent)]
             (exampleOptions "touch") (ContextMenu exampleEvent)).
    reflexivity.
Defined.

(** ** Handlers of the other modes *)

(** X14.  The merged handlers are attached by mode: a mouse event in touch
    mode, a keyboard event or a [visibilitychange] outside keyboard mode,
    and a context menu outside touch mode only call the caller's own
    handler, if there is one, and leave the widget as it is. *)
Theorem other_modes_pass_through (o : TooltipOptions) (l : label)
    (st : State) :
  foreign o l = true ->
  react o l st = (tt, st, callerTrace o l).
Proof.
  destruct l; cbn [foreign callerTrace]; try discriminate; intros Hf.
  all: hook_unfold; cbn.
  all: try rewrite Hf; try (apply negb_true_iff in Hf; rewrite Hf); cbn.
  all: split_ifs; reflexivity.
Qed.

Lemma other_modes_pass_through_witness :
  foreign (exampleOptions "touch") (MouseEnter exampleEvent) = true
  /\ react (exampleOptions "touch") (MouseEnter exampleEvent)
           (mount (exampleOptions "touch"))
     = (tt, mount (exampleOptions "touch"),
        callerTrace (exampleOptions "touch") (MouseEnter exampleEvent)).
Proof.
  split.
  - reflexivity.
  - apply (@other_modes_pass_through (exampleOptions "touch")
             (MouseEnter exampleEvent) (mount (exampleOptions "touch"))).
    reflexivity.
Defined.

End TooltipExtra.

(* ================================================================== *)
(** * Properties of useVisiblityChange *)
(* ================================================================== *)

Module VisibilityChangeTheory.
Import React VisibilityChange.
Local Open Scope list_scope.
Local Open Scope nat_scope.

Lemma renders_cons (o : VisibilityChangeOptions)
    (vm : bool * Tooltip.TooltipInitiated)
    (vms : list (bool * Tooltip.TooltipInitiated)) (st : EffectState) :
  renders o (vm :: vms) st
  = (fst (renders o vms (fst (render (withState o vm) st))),
     snd (render (withState o vm) st)
     ++ snd (renders o vms (fst (render (withState o vm) st)))).
Proof.
  cbn [renders]. destruct (render (withState o vm) st) as [st1 tr1].
  cbn [fst snd]. destruct (renders o vms st1) as [st2 tr2]. reflexivity.
Qed.

(** From any state on, the calls of the rest of a component's life take
    turns, beginning with a hide exactly when a clean-up is registered, and
    that clean-up accounts for the one hide more than shows. *)
Lemma rest_of_life_balanced (cbShow cbHide : callback)
    (vms : list (bool * Tooltip.TooltipInitiated)) (st : EffectState) :
  let o := bothHandlers cbShow cbHide in
  let tr := snd (renders o vms st) ++ unmount o (fst (renders o vms st)) in
  takesTurns (cleanup st) tr = true
  /\ countHides tr = countShows tr + (if cleanup st then 1 else 0).
Proof.
  cbv zeta. revert st.
  induction vms as [|[v m] vms IH]; intros st.
  - cbn. unfold unmount. destruct (cleanup st); cbn; auto.
  - rewrite renders_cons. cbn [fst snd]. rewrite <- app_assoc.
    set (o := bothHandlers cbShow cbHide) in *.
    specialize (IH (fst (render (withState o (v, m)) st))).
    revert IH.
    set (rest := snd (renders o vms _) ++ unmount o _).
    unfold render, depsChanged, callOnHide, callOnShow. cbn.
    destruct st as [[d|] c]; destruct v, m as [m|], c; try destruct d; cbn.
    all: intros [IH1 IH2]; rewrite ?IH1; split; try reflexivity; lia.
Qed.

(** X15.  Over the whole life of a component that passes both handlers,
    whatever the sequence of [visible] and [mode] it is rendered with,
    [onShow] and [onHide] are called in turns, beginning with [onShow], and
    every [onShow] is followed by its [onHide], at the latest when the
    component unmounts. *)
Theorem shows_and_hides_take_turns (cbShow cbHide : callback)
    (vms : list (bool * Tooltip.TooltipInitiated)) :
  takesTurns false (lifetime (bothHandlers cbShow cbHide) vms) = true
  /\ countHides (lifetime (bothHandlers cbShow cbHide) vms)
     = countShows (lifetime (bothHandlers cbShow cbHide) vms).
Proof.
  pose proof (rest_of_life_balanced cbShow cbHide vms unmounted) as H.
  cbv zeta in H. cbn [cleanup unmounted] in H.
  unfold lifetime.
  destruct (renders (bothHandlers cbShow cbHide) vms unmounted) as [st tr].
  cbn [fst snd] in H. rewrite Nat.add_0_r in H. exact H.
Qed.

Lemma skipped_stays_silent (o : VisibilityChangeOptions)
    (ms : list Tooltip.TooltipInitiated) (m' : Tooltip.TooltipInitiated) :
  renders o (map (pair true) ms ++ [(false, m')])
          {| deps := Some true; cleanup := false |}
  = ({| deps := Some false; cleanup := false |}, []).
Proof.
  induction ms as [|m ms IH]; [reflexivity|].
  cbn [map app]. rewrite renders_cons.
  unfold render at 1 2. cbn. rewrite IH. reflexivity.
Qed.

(** X16.  When the tooltip becomes visible while the mode is [null], the
    effect returns early: [onShow] is not called then, nor later while the
    tooltip stays visible even if a mode is set in the meantime (the effect
    depends on [visible] only), and [onHide] is called neither when the
    tooltip is hidden again nor on unmount. *)
Theorem shown_without_mode_is_silent (o : VisibilityChangeOptions)
    (st : EffectState) (ms : list Tooltip.TooltipInitiated)
    (m' : Tooltip.TooltipInitiated) :
  depsChanged st true = true ->
  snd (render (withState o (true, None)) st)
  = (if cleanup st then callOnHide o else [])
  /\ snd (renders o (map (pair true) ms ++ [(false, m')])
            (fst (render (withState o (true, None)) st))) = []
  /\ unmount o (fst (renders o (map (pair true) ms ++ [(false, m')])
                       (fst (render (withState o (true, None)) st)))) = [].
Proof.
  intros Hd. unfold render. cbn [visible mode withState fst snd].
  rewrite Hd. cbn [fst snd]. unfold callOnHide at 1. cbn [onHide withState].
  rewrite skipped_stays_silent. repeat split.
Qed.

Lemma shown_without_mode_is_silent_witness :
  depsChanged unmounted true = true
  /\ snd (renders (bothHandlers 1 2)
            (map (pair true) [Some "mouse"%string; None] ++ [(false, None)])
            (fst (render (withState (bothHandlers 1 2) (true, None))
                         unmounted))) = [].
Proof.
  split; [reflexivity|].
  apply (@shown_without_mode_is_silent (bothHandlers 1 2) unmounted
           [Some "mouse"%string; None] None).
  reflexivity.
Defined.

(** Visible with a mode, hidden, visible again, unmounted while visible. *)
Example two_periods :
  lifetime (bothHandlers 1 2)
    [(false, None); (true, Some "mouse"%string); (true, Some "touch"%string);
     (false, None); (true, Some "keyboard"%string)]
  = [ShowCalled 1 "mouse"%string; HideCalled 2;
     ShowCalled 1 "keyboard"%string; HideCalled 2].
Proof. reflexivity. Qed.

End VisibilityChangeTheory.

(* ================================================================== *)
(** * More about useRippleHandlers *)
(* ================================================================== *)

Module RippleExtra.
Import React Ripple RippleSequences ReactTheory RippleTheory.
Local Open Scope list_scope.

Lemma actionsOf_app {I : Type} (tr1 tr2 : list (effect I)) :
  actionsOf (tr1 ++ tr2) = actionsOf tr1 ++ actionsOf tr2.
Proof.
  induction tr1 as [|[cb ev|a] tr1 IH]; cbn; rewrite ?IH; reflexivity.
Qed.

Lemma enabled_calls (R : Type) (o : Options R) (ty : eventType)
    (event : Event) (r : R) :
  disabled o = false -> disableRipple o = false ->
  actionsOf (traceOf (handle o ty event r))
  = rippleCallFor (disableProgrammaticRipple o) ty event.
Proof.
  intros Hd Hr. unfold handle, useRippleHandlers. rewrite Hd, Hr.
  destruct ty; cbn [handlerFor orb]; ripple_unfold; cbn.
  all: split_ifs; reflexivity.
Qed.

Lemma handleAll_calls (R : Type) (o : Options R)
    (evs : list (eventType * Event)) (r : R) :
  disabled o = false -> disableRipple o = false ->
  actionsOf (traceOf (handleAll o evs r))
  = flat_map (fun te => rippleCallFor (disableProgrammaticRipple o)
                                      (fst te) (snd te)) evs.
Proof.
  intros Hd Hr. revert r. induction evs as [|[ty ev] evs IH]; intros r.
  - reflexivity.
  - cbn [handleAll flat_map fst snd].
    rewrite (bind_traceOf (handle o ty ev) (fun _ => handleAll o evs) r).
    rewrite actionsOf_app, IH, enabled_calls by assumption. reflexivity.
Qed.

(** X17.  With ripples enabled, a click with the mouse or a tap on the
    element that has the focus makes exactly one ripple: [create] is called
    on the down event, [release] on the up event, and the click event that
    follows calls neither, whatever the ripple state and the caller's
    handlers are.  The same holds for any target when programmatic ripples
    are disabled. *)
Theorem user_click_ripples_once (R : Type) (o : Options R) (event : Event)
    (r : R) :
  disabled o = false ->
  disableRipple o = false ->
  disableProgrammaticRipple o || targetIsActiveElement event = true ->
  actionsOf (traceOf (handleAll o (mouseClick event) r))
  = [Create event; Release event]
  /\ actionsOf (traceOf (handleAll o (tap event) r))
     = [Create event; Release event].
Proof.
  intros Hd Hr Hp. rewrite !handleAll_calls by assumption.
  cbn. rewrite Hp. split; reflexivity.
Qed.

Lemma user_click_ripples_once_witness :
  disabled (rippleOptions exampleHandlers false false false) = false
  /\ disableRipple (rippleOptions exampleHandlers false false false) = false
  /\ disableProgrammaticRipple (rippleOptions exampleHandlers false false
                                              false)
     || targetIsActiveElement focusedPress = true
  /\ actionsOf (traceOf (handleAll (rippleOptions exampleHandlers false false
                                                  false)
                                   (mouseClick focusedPress) NoRipple))
     = [Create focusedPress; Release focusedPress].
Proof.
  split; [reflexivity|]. split; [reflexivity|]. split; [reflexivity|].
  apply (@user_click_ripples_once RippleState
           (rippleOptions exampleHandlers false false false) focusedPress
           NoRipple); reflexivity.
Defined.

End RippleExtra.

(* ================================================================== *)
(** * More about useKeyboardClickPolyfill *)
(* ================================================================== *)

Module KeyboardClickExtra.
Import React KeyboardClick ReactTheory.
Local Open Scope string_scope.
Local Open Scope list_scope.

Lemma handleKeyDown_run (onKeyDown : option callback)
    (disableSpacebarClick : bool) (event : Event) (s : unit) :
  handleKeyDown onKeyDown disableSpacebarClick event s
  = (tt, s,
     userCall onKeyDown event
     ++ (if clicks disableSpacebarClick event
         then syntheticClick event else [])).
Proof.
  unfold handleKeyDown, clicks, syntheticClick.
  cbv [bind ret perform callIfPresent when].
  destruct onKeyDown, disableSpacebarClick, s,
    (key event =? "Enter"), (key event =? " "),
    (tagName (currentTarget event) =? "BUTTON"),
    (tagName (currentTarget event) =? "A"); reflexivity.
Qed.

(** X18.  On a keydown that does not click (another key, a BUTTON, Space on
    an A, Space with the spacebar click disabled) the handler the polyfill
    returns behaves exactly like the one it returns when disabled, that is
    like the caller's own [onKeyDown] or like no handler at all. *)
Theorem polyfill_transparent_unless_clicking (onKeyDown : option callback)
    (disableSpacebarClick : bool) (event : Event) (s : unit) :
  clicks disableSpacebarClick event = false ->
  dispatch (useKeyboardClickPolyfill onKeyDown false disableSpacebarClick)
           event s
  = dispatch (useKeyboardClickPolyfill onKeyDown true disableSpacebarClick)
             event s.
Proof.
  intros Hc. unfold useKeyboardClickPolyfill. cbn [dispatch].
  rewrite handleKeyDown_run, Hc, app_nil_r.
  destruct onKeyDown; reflexivity.
Qed.

Lemma polyfill_transparent_unless_clicking_witness :
  clicks false (keydown " " "A") = false
  /\ dispatch (useKeyboardClickPolyfill (Some 5) false false)
              (keydown " " "A") tt
     = dispatch (useKeyboardClickPolyfill (Some 5) true false)
                (keydown " " "A") tt.
Proof.
  split; [reflexivity|].
  apply (@polyfill_transparent_unless_clicking (Some 5) false
           (keydown " " "A") tt).
  reflexivity.
Defined.

(** X19.  [disableSpacebarClick] matters for the Space key only: on every
    other key the handler does the same with and without it. *)
Theorem spacebar_flag_only_matters_for_space (onKeyDown : option callback)
    (event : Event) (s : unit) :
  key event <> " " ->
  handleKeyDown onKeyDown true event s = handleKeyDown onKeyDown false event s.
Proof.
  intros Hk. apply String.eqb_neq in Hk.
  rewrite !handleKeyDown_run. unfold clicks. rewrite Hk.
  rewrite !andb_false_r, !andb_false_l. reflexivity.
Qed.

Lemma spacebar_flag_only_matters_for_space_witness :
  key (keydown "Enter" "DIV") <> " "
  /\ handleKeyDown (Some 5) true (keydown "Enter" "DIV") tt
     = handleKeyDown (Some 5) false (keydown "Enter" "DIV") tt.
Proof.
  split; [discriminate|].
  apply (@spacebar_flag_only_matters_for_space (Some 5)
           (keydown "Enter" "DIV") tt).
  discriminate.
Defined.

End KeyboardClickExtra.
